(** * admin-backend: the JSON-file collections and the profile endpoints of
      [server/server.js]

    The development embeds the request handlers of [server.js] as functions
    over an explicit file system (a finite map from paths to file contents)
    and an explicit table of profile rows, and proves the properties the
    specification states about them.

    Modelling conventions.
    - A JSON document is a value of [json]; objects are association lists
      in key order (the order [JSON.stringify] prints them in).
    - JavaScript numbers are idealised as the integers [Z]; fractional
      numbers are outside the model.  A number read from text the client
      chooses (the id of a path, a payload on its way through the body
      parser) is the double nearest to it.
    - The builtins whose result depends on more than ASCII text or on that
      rounding ([parseInt], [toLowerCase], the order of strings and the
      conversion of a string to a number) are primitives of the runtime:
      the theorems hold for whatever they compute.
    - A file is what [JSON.parse] makes of its text: a document, or nothing
      when the text does not parse.  [fs.writeJson] stores the text
      [JSON.stringify] prints, and that the parser reads the document back
      from it is proved, not assumed.  Writing to the disk itself does not
      fail.
    - A thrown exception is [None] in the [io] monad; every handler body is
      wrapped in the [try]/[catch] of the source. *)

From Stdlib Require Import ZArith String Ascii List Bool Lia.
From stdpp Require Import gmap strings list fin_maps pretty.

Local Open Scope Z_scope.
#[local] Set Warnings "-register-all".

(** ** JSON documents *)

Inductive json : Type :=
| JNull
| JBool (b : bool)
| JNum (n : Z)
| JStr (s : string)
| JArr (items : list json)
| JObj (fields : list (string * json)).

(** [fields[k]] for an own property of a parsed object: the first binding. *)
Fixpoint own (k : string) (fields : list (string * json)) : option json :=
  match fields with
  | [] => None
  | (k', v) :: rest => if String.eqb k' k then Some v else own k rest
  end.

(** [obj[k] = x] on the fields of an object: an existing key keeps its
    position, a new key is appended. *)
Fixpoint assign (k : string) (x : json) (fields : list (string * json))
  : list (string * json) :=
  match fields with
  | [] => [(k, x)]
  | (k', v) :: rest =>
      if String.eqb k' k then (k', x) :: rest else (k', v) :: assign k x rest
  end.

(** ** Case folding *)

Module Case.

Definition lower (c : ascii) : ascii :=
  let n := N_of_ascii c in
  if ((65 <=? n) && (n <=? 90))%N then ascii_of_N (n + 32) else c.

(** The letters [A]-[Z] lowered, every other unit kept. *)
Fixpoint fold (s : string) : string :=
  match s with
  | EmptyString => EmptyString
  | String c rest => String (lower c) (fold rest)
  end.

(** The text has ASCII units only. *)
Fixpoint plain (s : string) : bool :=
  match s with
  | EmptyString => true
  | String c rest => (N_of_ascii c <? 128)%N && plain rest
  end.

(** Lowering as far as a comparison with ASCII text can tell, on UTF-8
    text: besides [A]-[Z] only the Kelvin sign (U+212A, the units 226 132
    170) lowers to an ASCII letter; the other units are kept. *)
Fixpoint lowered (s : string) : string :=
  match s with
  | String "226" (String "132" (String "170" rest)) => String "k" (lowered rest)
  | String c rest => String (lower c) (lowered rest)
  | EmptyString => EmptyString
  end.

Definition toLowerCase (s : string) : string :=
  if plain s then fold s else lowered s.

End Case.

Module JS.

(** The environment the module is loaded in: [process.env.VERCEL === '1'],
    [__dirname], and the builtins of the language the handlers call on
    text.  [StringToNumber] and [parseInt] answer [None] for [NaN] (and for
    a result no stored integer can equal); [StringLessThan] is the order
    [<] of two strings; [toLowerCase] is [String.prototype.toLowerCase],
    which on ASCII text lowers the letters [A]-[Z] and nothing else. *)
Record Runtime : Type := {
  isVercel : bool;
  dirname : string;
  StringToNumber : string -> option Z;
  StringLessThan : string -> string -> bool;
  parseInt : string -> option Z;
  toLowerCase : string -> string;
  toLowerCase_plain : forall s, Case.plain s = true -> toLowerCase s = Case.fold s;
}.

(** Primitive values, the results of [ToPrimitive]. *)
Inductive prim : Type :=
| PUndefined
| PNull
| PBool (b : bool)
| PNum (n : Z)
| PStr (s : string).

(** [item.k] for [k] one of the record keys the handlers read ([id],
    [crop_code], [loantype]): reading a property of [null] throws, a
    parsed object answers its own binding, anything else [undefined]
    (the outer [None] is the TypeError, the inner one is [undefined]). *)
Definition get (k : string) (v : json) : option (option json) :=
  match v with
  | JNull => None
  | JObj fields => Some (own k fields)
  | _ => Some None
  end.

(** [v.k = x] as later seen through [JSON.stringify]: on [null] it throws;
    on an object it binds the key; on an array the property is set on the
    array object but is not an index, so the printed document is the array
    unchanged; on a primitive the assignment is silently dropped (the module
    is not in strict mode). *)
Definition set (k : string) (x : json) (v : json) : option json :=
  match v with
  | JNull => None
  | JObj fields => Some (JObj (assign k x fields))
  | _ => Some v
  end.

(** [ToBoolean]. *)
Definition truthy (v : option json) : bool :=
  match v with
  | None | Some JNull => false
  | Some (JBool b) => b
  | Some (JNum n) => negb (n =? 0)
  | Some (JStr s) => negb (String.eqb s "")
  | Some (JArr _) | Some (JObj _) => true
  end.

(** [String(v)]: an array is its elements joined by commas ([null] prints as
    the empty string there); a plain object is ["[object Object]"] unless it
    carries an own (hence non-callable) [toString], which makes the
    conversion throw. *)
Fixpoint to_string (v : json) : option string :=
  match v with
  | JNull => Some "null"%string
  | JBool b => Some (if b then "true" else "false")%string
  | JNum n => Some (pretty n)
  | JStr s => Some s
  | JArr items =>
      let element (x : json) : option string :=
        match x with JNull => Some ""%string | _ => to_string x end in
      (fix join (l : list json) : option string :=
         match l with
         | [] => Some ""%string
         | x :: rest =>
             match rest with
             | [] => element x
             | _ => s ← element x; t ← join rest; Some (s +:+ "," +:+ t)
             end
         end) items
  | JObj fields =>
      match own "toString" fields with
      | Some _ => None
      | None => Some "[object Object]"%string
      end
  end.

Definition to_primitive (v : option json) : option prim :=
  match v with
  | None => Some PUndefined
  | Some JNull => Some PNull
  | Some (JBool b) => Some (PBool b)
  | Some (JNum n) => Some (PNum n)
  | Some (JStr s) => Some (PStr s)
  | Some (JArr items) => PStr <$> to_string (JArr items)
  | Some (JObj fields) => PStr <$> to_string (JObj fields)
  end.

(** The order of strings unit by unit, which on UTF-8 text is the order of
    the language as long as no code point lies beyond the basic plane.  The
    sample deployments use it. *)
Definition string_lt (a b : string) : bool :=
  match String.compare a b with Lt => true | _ => false end.

Section Coercions.
Context (rt : Runtime).

(** [ToNumber] on a primitive; [None] is [NaN]. *)
Definition to_number (p : prim) : option Z :=
  match p with
  | PUndefined => None
  | PNull => Some 0
  | PBool b => Some (if b then 1 else 0)
  | PNum n => Some n
  | PStr s => StringToNumber rt s
  end.

(** [x > y]: two strings compare as strings, anything else as numbers,
    and a comparison with [NaN] is false.  The outer [None] is a throw
    of [ToPrimitive]. *)
Definition gt (x y : option json) : option bool :=
  px ← to_primitive x;
  py ← to_primitive y;
  match px, py with
  | PStr a, PStr b => Some (string_lt b a)
  | _, _ =>
      match to_number px, to_number py with
      | Some nx, Some ny => Some (ny <? nx)
      | _, _ => Some false
      end
  end.

(** [v + 1]: a string operand (after [ToPrimitive]) concatenates,
    otherwise the operands add as numbers. *)
Definition plus_one (v : json) : option json :=
  p ← to_primitive (Some v);
  match p with
  | PStr s => Some (JStr (s +:+ "1"))
  | _ =>
      match to_number p with
      | Some n => Some (JNum (n + 1))
      | None => Some JNull (* NaN, which prints as null *)
      end
  end.
End Coercions.

(** [x === n] for a number [n]. *)
Definition strict_eq_num (x : option json) (n : Z) : bool :=
  match x with
  | Some (JNum m) => m =? n
  | _ => false
  end.

(** [x !== s] for a string literal [s]. *)
Definition strict_ne_str (x : option json) (s : string) : bool :=
  match x with
  | Some (JStr t) => negb (String.eqb t s)
  | _ => true
  end.

End JS.

(** ** Integers as doubles *)

Module Double.

(** The double nearest to an integer, ties to the even significand;
    [None] when it is infinite. *)
Definition nearest (v : Z) : option Z :=
  let a := Z.abs v in
  if a <? 2 ^ 53 then Some v
  else
    let e := Z.log2 a - 52 in
    let q := a / 2 ^ e in
    let r := a mod 2 ^ e in
    let half := 2 ^ (e - 1) in
    let q' := if (half <? r) || ((r =? half) && Z.odd q) then q + 1 else q in
    let m := q' * 2 ^ e in
    if m <? 2 ^ 1024 then Some (Z.sgn v * m) else None.

End Double.

(** ** [parseInt] on UTF-8 text

    What [parseInt] computes for a path id: leading white space is skipped,
    then an optional sign, then an optional [0x] prefix, then the longest
    run of digits of the radix; no digit at all is [NaN] ([None]).  The
    number read is rounded to the nearest double, and is [None] when that
    is infinite.  The sample deployments use it; the handlers take
    [parseInt] from the runtime. *)

Module ParseInt.

Definition is_space (c : ascii) : bool :=
  let n := N_of_ascii c in
  ((9 <=? n) && (n <=? 13) || (n =? 32))%N.

(** The white space of more than one unit: U+00A0; U+1680, U+2000-U+200A,
    U+2028, U+2029, U+202F, U+205F, U+3000 and U+FEFF. *)
Definition two_units (a b : N) : bool := ((a =? 194) && (b =? 160))%N.

Definition three_units (a b c : N) : bool :=
  ((a =? 225) && (b =? 154) && (c =? 128)
   || (a =? 226) && (b =? 128) &&
        ((128 <=? c) && (c <=? 138) || (c =? 168) || (c =? 169) || (c =? 175))
   || (a =? 226) && (b =? 129) && (c =? 159)
   || (a =? 227) && (b =? 128) && (c =? 128)
   || (a =? 239) && (b =? 187) && (c =? 191))%N.

Fixpoint skip_spaces (s : string) : string :=
  match s with
  | String a rest =>
      if is_space a then skip_spaces rest
      else
        match rest with
        | String b rest2 =>
            if two_units (N_of_ascii a) (N_of_ascii b) then skip_spaces rest2
            else
              match rest2 with
              | String c rest3 =>
                  if three_units (N_of_ascii a) (N_of_ascii b) (N_of_ascii c)
                  then skip_spaces rest3 else s
              | EmptyString => s
              end
        | EmptyString => s
        end
  | EmptyString => s
  end.

(** The value of a digit character in a radix, if it is one. *)
Definition digit (radix : Z) (c : ascii) : option Z :=
  let n := Z.of_N (N_of_ascii c) in
  let d :=
    if (48 <=? n) && (n <=? 57) then Some (n - 48)
    else if (97 <=? n) && (n <=? 122) then Some (n - 87)
    else if (65 <=? n) && (n <=? 90) then Some (n - 55)
    else None in
  match d with
  | Some v => if v <? radix then Some v else None
  | None => None
  end.

(** Reads digits while there are some; [acc] is [None] until the first. *)
Fixpoint digits (radix : Z) (acc : option Z) (s : string) : option Z :=
  match s with
  | String c rest =>
      match digit radix c with
      | Some d => digits radix (Some (default 0 acc * radix + d)) rest
      | None => acc
      end
  | EmptyString => acc
  end.

Definition unsigned (s : string) : option Z :=
  match s with
  | String "0" (String "x" rest) | String "0" (String "X" rest) =>
      digits 16 None rest
  | _ => digits 10 None s
  end.

Definition parseInt (s : string) : option Z :=
  match skip_spaces s with
  | String "-" rest => n ← unsigned rest; Double.nearest (- n)
  | String "+" rest => n ← unsigned rest; Double.nearest n
  | rest => n ← unsigned rest; Double.nearest n
  end.

End ParseInt.

(** ** The text of a document

    [fs.writeJson(path, data, { spaces: 2 })] writes
    [JSON.stringify(data, null, 2)] and a final newline, [fs.readJson]
    hands the text of the file to [JSON.parse].  Text is a string of UTF-8
    units. *)

Module JSON.

Definition quotation : ascii := "034"%char.
Definition newline : string := String "010" "".

Definition hex_digit (n : N) : ascii :=
  ascii_of_N (if (n <? 10)%N then 48 + n else 87 + n).

(** [QuoteJSONString] on one unit: the short escapes, [\u00xx] for the
    other control characters, the unit itself otherwise. *)
Definition escape (c : ascii) : string :=
  match c with
  | "008"%char => "\b"
  | "009"%char => "\t"
  | "010"%char => "\n"
  | "012"%char => "\f"
  | "013"%char => "\r"
  | "034"%char => String "\" (String quotation "")
  | "\"%char => "\\"
  | _ =>
      let n := N_of_ascii c in
      if (n <? 32)%N
      then "\u00" +:+ String (hex_digit (n / 16)) (String (hex_digit (n mod 16)) "")
      else String c ""
  end%string.

Fixpoint escaped (s : string) : string :=
  match s with
  | EmptyString => EmptyString
  | String c rest => escape c +:+ escaped rest
  end.

Definition quote (s : string) : string :=
  String quotation (escaped s +:+ String quotation "").

(** [SerializeJSONProperty] with a gap of two spaces; [indent] is the
    indentation of the line the value starts on. *)
Fixpoint stringify_at (indent : string) (v : json) : string :=
  let inner := (indent +:+ "  ")%string in
  let separator := ("," +:+ newline +:+ inner)%string in
  match v with
  | JNull => "null"
  | JBool true => "true"
  | JBool false => "false"
  | JNum n => pretty n
  | JStr s => quote s
  | JArr [] => "[]"
  | JArr items =>
      "[" +:+ newline +:+ inner +:+
      String.concat separator (map (stringify_at inner) items) +:+
      newline +:+ indent +:+ "]"
  | JObj [] => "{}"
  | JObj fields =>
      "{" +:+ newline +:+ inner +:+
      String.concat separator
        (map (fun kv => quote kv.1 +:+ ": " +:+ stringify_at inner kv.2) fields) +:+
      newline +:+ indent +:+ "}"
  end%string.

Definition stringify (v : json) : string := stringify_at "" v.

(** *** [JSON.parse]: the tokens of a text, then the value they spell *)

Inductive token : Type :=
| LBrace | RBrace | LBracket | RBracket | Comma | Colon
| Null
| Bool (b : bool)
| Num (n : Z)
| Str (s : string).

(** Where the scanner is: between tokens, in a number (after the sign,
    [value] is [None] until the first digit), in a string, after the
    backslash of an escape, in the four digits of a [\u] escape ([high] is
    the first half of a surrogate pair when the escape has to be the
    second), or between the two escapes of a surrogate pair. *)
Inductive mode : Type :=
| Idle
| Digits (negative : bool) (value : option Z)
| Text (read : string)
| Escaped (read : string)
| Unicode (more : nat) (code : N) (high : option N) (read : string)
| Low (high : N) (read : string)
| LowEscaped (high : N) (read : string).

Definition is_space (c : ascii) : bool :=
  match c with
  | " " | "009" | "010" | "013" => true
  | _ => false
  end%char.

Definition digit (c : ascii) : option Z :=
  let n := Z.of_N (N_of_ascii c) in
  if (48 <=? n) && (n <=? 57) then Some (n - 48) else None.

Definition hex (c : ascii) : option N :=
  let n := N_of_ascii c in
  if ((48 <=? n) && (n <=? 57))%N then Some (n - 48)%N
  else if ((97 <=? n) && (n <=? 102))%N then Some (n - 87)%N
  else if ((65 <=? n) && (n <=? 70))%N then Some (n - 55)%N
  else None.

(** The unit an escape letter stands for. *)
Definition unescape (c : ascii) : option ascii :=
  match c with
  | "034" => Some "034"
  | "\" => Some "\"
  | "/" => Some "/"
  | "b" => Some "008"
  | "f" => Some "012"
  | "n" => Some "010"
  | "r" => Some "013"
  | "t" => Some "009"
  | _ => None
  end%char.

(** The UTF-8 units of a code point. *)
Definition utf8 (code : N) : string :=
  (if code <? 128 then String (ascii_of_N code) ""
   else if code <? 2048
   then String (ascii_of_N (192 + code / 64)) (String (ascii_of_N (128 + code mod 64)) "")
   else if code <? 65536
   then String (ascii_of_N (224 + code / 4096))
          (String (ascii_of_N (128 + (code / 64) mod 64))
             (String (ascii_of_N (128 + code mod 64)) ""))
   else String (ascii_of_N (240 + code / 262144))
          (String (ascii_of_N (128 + (code / 4096) mod 64))
             (String (ascii_of_N (128 + (code / 64) mod 64))
                (String (ascii_of_N (128 + code mod 64)) ""))))%N.

(** What a [\u] escape adds to the string read so far: the units of its
    code point, or of the code point of the pair it completes; the first
    half of a pair waits for the second.  Half a pair on its own has no
    UTF-8 text and is outside the model. *)
Definition escaped_unit (code : N) (high : option N) (read : string) : option mode :=
  (match high with
   | None =>
       if (55296 <=? code) && (code <? 56320) then Some (Low code read)
       else if (56320 <=? code) && (code <? 57344) then None
       else Some (Text (read +:+ utf8 code))
   | Some h =>
       if (56320 <=? code) && (code <? 57344)
       then Some (Text (read +:+ utf8 (65536 + (h - 55296) * 1024 + (code - 56320))))
       else None
   end)%N.

Definition signed (negative : bool) (n : Z) : Z := if negative then - n else n.

(** The tokens of a text, [None] for text that is not JSON.  A number is
    an integer numeral, without a leading zero as in the grammar; numerals
    with a fraction or an exponent are outside the model. *)
Fixpoint lex (m : mode) (s : string) : option (list token) :=
  match s with
  | EmptyString =>
      match m with
      | Idle => Some []
      | Digits negative (Some n) => Some [Num (signed negative n)]
      | _ => None
      end
  | String c rest =>
      let start (_ : unit) : option (list token) :=
        if is_space c then lex Idle rest
        else match c with
        | "{" => (LBrace ::.) <$> lex Idle rest
        | "}" => (RBrace ::.) <$> lex Idle rest
        | "[" => (LBracket ::.) <$> lex Idle rest
        | "]" => (RBracket ::.) <$> lex Idle rest
        | "," => (Comma ::.) <$> lex Idle rest
        | ":" => (Colon ::.) <$> lex Idle rest
        | "034" => lex (Text "") rest
        | "-" => lex (Digits true None) rest
        | "n" =>
            match rest with
            | String "u" (String "l" (String "l" k)) => (Null ::.) <$> lex Idle k
            | _ => None
            end
        | "t" =>
            match rest with
            | String "r" (String "u" (String "e" k)) => (Bool true ::.) <$> lex Idle k
            | _ => None
            end
        | "f" =>
            match rest with
            | String "a" (String "l" (String "s" (String "e" k))) =>
                (Bool false ::.) <$> lex Idle k
            | _ => None
            end
        | _ =>
            match digit c with
            | Some d => lex (Digits false (Some d)) rest
            | None => None
            end
        end%char in
      match m with
      | Idle => start tt
      | Digits negative value =>
          match digit c, value with
          | Some d, Some 0 => None
          | Some d, _ => lex (Digits negative (Some (default 0 value * 10 + d))) rest
          | None, Some n => (Num (signed negative n) ::.) <$> start tt
          | None, None => None
          end
      | Text read =>
          if Ascii.eqb c quotation then (Str read ::.) <$> lex Idle rest
          else if Ascii.eqb c "\" then lex (Escaped read) rest
          else if (N_of_ascii c <? 32)%N then None
          else lex (Text (read +:+ String c "")) rest
      | Escaped read =>
          match unescape c with
          | Some u => lex (Text (read +:+ String u "")) rest
          | None => if Ascii.eqb c "u" then lex (Unicode 4 0 None read) rest else None
          end
      | Unicode more code high read =>
          match hex c, more with
          | Some h, 1%nat =>
              match escaped_unit (code * 16 + h) high read with
              | Some next => lex next rest
              | None => None
              end
          | Some h, S more => lex (Unicode more (code * 16 + h) high read) rest
          | _, _ => None
          end
      | Low high read =>
          if Ascii.eqb c "\" then lex (LowEscaped high read) rest else None
      | LowEscaped high read =>
          if Ascii.eqb c "u" then lex (Unicode 4 0 (Some high) read) rest else None
      end
  end.

(** The value a run of tokens starts with and the tokens after it; [fuel]
    bounds the number of values read. *)
Fixpoint value (fuel : nat) (ts : list token) : option (json * list token) :=
  match fuel with
  | O => None
  | S fuel =>
      match ts with
      | Null :: k => Some (JNull, k)
      | Bool b :: k => Some (JBool b, k)
      | Num n :: k => Some (JNum n, k)
      | Str s :: k => Some (JStr s, k)
      | LBracket :: RBracket :: k => Some (JArr [], k)
      | LBracket :: k => '(items, k) ← elements fuel k; Some (JArr items, k)
      | LBrace :: RBrace :: k => Some (JObj [], k)
      | LBrace :: k => '(fields, k) ← members fuel k; Some (JObj fields, k)
      | _ => None
      end
  end
with elements (fuel : nat) (ts : list token) : option (list json * list token) :=
  match fuel with
  | O => None
  | S fuel =>
      '(x, k) ← value fuel ts;
      match k with
      | Comma :: k => '(items, k) ← elements fuel k; Some (x :: items, k)
      | RBracket :: k => Some ([x], k)
      | _ => None
      end
  end
with members (fuel : nat) (ts : list token)
  : option (list (string * json) * list token) :=
  match fuel with
  | O => None
  | S fuel =>
      match ts with
      | Str key :: Colon :: k =>
          '(x, k) ← value fuel k;
          match k with
          | Comma :: k => '(fields, k) ← members fuel k; Some ((key, x) :: fields, k)
          | RBrace :: k => Some ([(key, x)], k)
          | _ => None
          end
      | _ => None
      end
  end.

(** A parsed object lists its members in the order of the text. *)
Definition parse (s : string) : option json :=
  ts ← lex Idle s;
  match value (length ts) ts with
  | Some (v, []) => Some v
  | _ => None
  end.

(** *** The value [JSON.parse] builds

    The properties of a JavaScript object are its array indices in
    ascending order, then its other keys in the order they were created; a
    key that comes twice in a text keeps its first place and takes its last
    value.  A number is the double nearest to its numeral; an infinite one
    can only be printed by the handlers, as [null]. *)






(** The tokens [stringify] spells a document with. *)
Fixpoint separated (parts : list (list token)) : list token :=
  match parts with
  | [] => []
  | [p] => p
  | p :: rest => p ++ Comma :: separated rest
  end.

Fixpoint tokens (v : json) : list token :=
  match v with
  | JNull => [Null]
  | JBool b => [Bool b]
  | JNum n => [Num n]
  | JStr s => [Str s]
  | JArr items => LBracket :: separated (map tokens items) ++ [RBracket]
  | JObj fields =>
      LBrace :: separated (map (fun kv => Str kv.1 :: Colon :: tokens kv.2) fields)
        ++ [RBrace]
  end.

(** Indentation, and text a number can end in front of. *)
Fixpoint blank (s : string) : bool :=
  match s with
  | EmptyString => true
  | String c rest => is_space c && blank rest
  end.

Definition delimited (s : string) : Prop :=
  match s with
  | EmptyString => True
  | String c _ => digit c = None
  end.

End JSON.

(** ** The file system and the handlers' monad *)

(** What a path holds, as [fs.readJson] sees it: text that [JSON.parse]
    refuses, or the document it reads. *)
Inductive file : Type :=
| Unparsable
| Document (doc : json).

Definition content (text : string) : file :=
  match JSON.parse text with
  | Some doc => Document doc
  | None => Unparsable
  end.

(** The file [fs.writeJson(path, d, { spaces: 2 })] leaves: the text
    [JSON.stringify(d, null, 2)] and a final newline. *)
Definition stored (d : json) : file :=
  content (JSON.stringify d +:+ JSON.newline).

Record response : Type := { status : Z; payload : json }.

(** [req.params.id] (or [req.params.uNumber]), [req.body] and
    [req.query.loantype]. *)
Inductive qparam : Type :=
| QAbsent
| QText (s : string)
| QNested.

Record request : Type := { param : string; body : json; loantype_query : qparam }.

(** A computation on the file system that returns or throws ([None]). *)
Definition io (A : Type) : Type := gmap string file -> option A * gmap string file.

#[global] Instance io_ret : MRet io := fun A a fs => (Some a, fs).
#[global] Instance io_bind : MBind io := fun A B f m fs =>
  match m fs with
  | (Some a, fs') => f a fs'
  | (None, fs') => (None, fs')
  end.

Definition throw {A : Type} : io A := fun fs => (None, fs).

(** A partial pure step becomes a computation that may throw. *)
Definition lift {A : Type} (o : option A) : io A := fun fs => (o, fs).

(** [try { body } catch (err) { res.status(..).json(..) }] around a whole
    request handler: what the file system looked like when the exception
    was thrown is kept. *)
Definition try_catch (body : io response) (caught : response)
  : gmap string file -> response * gmap string file :=
  fun fs =>
    match body fs with
    | (Some r, fs') => (r, fs')
    | (None, fs') => (caught, fs')
    end.

Definition pathExists (p : string) : io bool :=
  fun fs => (Some (bool_decide (is_Some (fs !! p))), fs).

Definition readJson (p : string) : io json :=
  fun fs =>
    match fs !! p with
    | Some (Document d) => (Some d, fs)
    | _ => (None, fs)
    end.

Definition writeJson (p : string) (d : json) : io unit :=
  fun fs => (Some tt, <[p := stored d]> fs).

(** Directories are not files of the model: creating one changes nothing. *)
Definition mkdirp (p : string) : io unit := mret tt.

(** [res.status(code).json(payload)]. *)
Definition send (code : Z) (payload : json) : io response :=
  mret {| status := code; payload := payload |}.

(** [for (const x of xs) { ... }]. *)
Fixpoint for_of {A : Type} (xs : list A) (f : A -> io unit) : io unit :=
  match xs with
  | [] => mret tt
  | x :: rest => f x ;; for_of rest f
  end.

(** [path.join] of clean segments. *)
Definition path_join (parts : list string) : string :=
  String.concat "/" parts.

(** [{ error: msg }] and [{ message: msg }]. *)
Definition error_body (msg : string) : json := JObj [("error"%string, JStr msg)].
Definition message_body (msg : string) : json := JObj [("message"%string, JStr msg)].

(** ** The collection endpoints *)

Section Server.
Context (rt : JS.Runtime).

Definition baseDir : string :=
  if JS.isVercel rt then path_join ["/tmp"%string] else JS.dirname rt.

Definition dataFilePath : string := path_join [baseDir; "gold.json"%string].
Definition animalFilePath : string := path_join [baseDir; "animal.json"%string].
Definition cropsFilePath : string := path_join [baseDir; "crops.json"%string].
Definition kccdataFilePath : string := path_join [baseDir; "kccdata.json"%string].
Definition kccahdataFilePath : string := path_join [baseDir; "kccahdata.json"%string].

(** [initializeFiles]: each listed file that does not exist is written
    with its [initialData], the empty array. *)
Definition init_file (file : string * json) : io unit :=
  exists_ ← pathExists file.1;
  if negb exists_ then writeJson file.1 file.2 else mret tt.

Definition initializeFiles : gmap string file -> gmap string file :=
  fun fs =>
    snd ((if JS.isVercel rt then
            let files :=
              [ (dataFilePath, JArr []);
                (animalFilePath, JArr []);
                (cropsFilePath, JArr []);
                (kccdataFilePath, JArr []);
                (kccahdataFilePath, JArr []) ] in
            for_of files init_file
          else
            let dataDir :=
              path_join [JS.dirname rt; "components"; "data"]%string in
            exists_ ← pathExists dataDir;
            (if negb exists_ then mkdirp dataDir else mret tt) ;;
            let localFiles :=
              [ (path_join [JS.dirname rt; "components"; "data"; "gold.json"]%string, JArr []);
                (path_join [JS.dirname rt; "components"; "data"; "animal.json"]%string, JArr []);
                (path_join [JS.dirname rt; "components"; "data"; "crops.json"]%string, JArr []);
                (path_join [JS.dirname rt; "components"; "data"; "kccdata.json"]%string, JArr []);
                (path_join [JS.dirname rt; "components"; "data"; "kccahdata.json"]%string, JArr []) ] in
            for_of localFiles init_file) fs).

(** [data.reduce(f, init)], [data.findIndex(p)]: methods of arrays only;
    on any other document the call throws. *)
Definition as_array (data : json) : option (list json) :=
  match data with
  | JArr items => Some items
  | _ => None
  end.

Fixpoint reduce (f : json -> json -> option json) (items : list json) (acc : json)
  : option json :=
  match items with
  | [] => Some acc
  | item :: rest => acc' ← f acc item; reduce f rest acc'
  end.

(** The inner [None] is the index [-1]. *)
Fixpoint findIndex (p : json -> option bool) (items : list json) : option (option nat) :=
  match items with
  | [] => Some None
  | item :: rest =>
      b ← p item;
      if b : bool then Some (Some 0%nat)
      else i ← findIndex p rest; Some (option_map S i)
  end.

(** [(max, item) => (item.key > max ? item.key : max)]. *)
Definition larger (key : string) (max item : json) : option json :=
  v ← JS.get key item;
  b ← JS.gt rt v (Some max);
  Some (if b : bool then default max v else max).

(** [item => item.key === id], with [id] the result of [parseInt]. *)
Definition has_key (key : string) (id : option Z) (item : json) : option bool :=
  v ← JS.get key item;
  Some (match id with
        | Some n => JS.strict_eq_num v n
        | None => false
        end).

(** [parseInt] answers a number or [NaN]; [NaN] prints as [null]. *)
Definition number (id : option Z) : json :=
  match id with
  | Some n => JNum n
  | None => JNull
  end.

(** [app.get('/api/<collection>')]. *)
Definition list_records (path failed : string) (req : request)
  : gmap string file -> response * gmap string file :=
  try_catch
    (data ← readJson path;
     send 200 data)
    {| status := 500; payload := error_body failed |}.

(** [app.post('/api/<collection>')] of gold, animal and crops. *)
Definition create_record (path key failed : string) (req : request)
  : gmap string file -> response * gmap string file :=
  try_catch
    (let newRecord := body req in
     exists_ ← pathExists path;
     data ← (if exists_ : bool then readJson path else mret (JArr []));
     items ← lift (as_array data);
     maxId ← lift (reduce (larger key) items (JNum 0));
     next ← lift (JS.plus_one rt maxId);
     newRecord ← lift (JS.set key next newRecord);
     let data := JArr (items ++ [newRecord]) in
     writeJson path data ;;
     send 201 newRecord)
    {| status := 500; payload := error_body failed |}.

(** [app.put('/api/<collection>/:id')]. *)
Definition replace_record (path key missing failed : string) (req : request)
  : gmap string file -> response * gmap string file :=
  try_catch
    (let id := JS.parseInt rt (param req) in
     let updatedRecord := body req in
     data ← readJson path;
     items ← lift (as_array data);
     index ← lift (findIndex (has_key key id) items);
     match index with
     | None => send 404 (error_body missing)
     | Some index =>
         updatedRecord ← lift (JS.set key (number id) updatedRecord);
         let data := JArr (<[index := updatedRecord]> items) in
         writeJson path data ;;
         send 200 updatedRecord
     end)
    {| status := 500; payload := error_body failed |}.

(** [app.delete('/api/<collection>/:id')]. *)
Definition delete_record (path key missing deleted failed : string) (req : request)
  : gmap string file -> response * gmap string file :=
  try_catch
    (let id := JS.parseInt rt (param req) in
     data ← readJson path;
     items ← lift (as_array data);
     index ← lift (findIndex (has_key key id) items);
     match index with
     | None => send 404 (error_body missing)
     | Some index =>
         let data := JArr (delete index items) in
         writeJson path data ;;
         send 200 (message_body deleted)
     end)
    {| status := 500; payload := error_body failed |}.

(** [app.post('/api/kccdata')] and [app.post('/api/kccahdata')]: the body
    replaces the document. *)
Definition overwrite_document (path : string) (req : request)
  : gmap string file -> response * gmap string file :=
  try_catch
    (let newData := body req in
     writeJson path newData ;;
     send 201 (message_body "Data overwritten successfully."))
    {| status := 500; payload := error_body "Error saving data" |}.

Definition get_api_kccahdata := list_records kccahdataFilePath "Error reading data".
Definition post_api_kccahdata := overwrite_document kccahdataFilePath.
Definition get_api_kccdata := list_records kccdataFilePath "Error reading data".
Definition post_api_kccdata := overwrite_document kccdataFilePath.

Definition get_api_gold := list_records dataFilePath "Failed to read gold data".
Definition post_api_gold := create_record dataFilePath "id" "Failed to save gold data".
Definition put_api_gold :=
  replace_record dataFilePath "id" "Record not found" "Failed to update record".
Definition delete_api_gold :=
  delete_record dataFilePath "id" "Record not found"
    "Record deleted successfully" "Failed to delete record".

Definition get_api_animal := list_records animalFilePath "Failed to read animal data".
Definition post_api_animal := create_record animalFilePath "id" "Failed to save animal data".
Definition put_api_animal :=
  replace_record animalFilePath "id" "Animal record not found"
    "Failed to update animal record".
Definition delete_api_animal :=
  delete_record animalFilePath "id" "Animal record not found"
    "Animal record deleted successfully" "Failed to delete animal record".

Definition get_api_crops := list_records cropsFilePath "Failed to read crop data".
Definition post_api_crops := create_record cropsFilePath "crop_code" "Failed to save crop data".
Definition put_api_crops :=
  replace_record cropsFilePath "crop_code" "Crop record not found"
    "Failed to update crop record".
Definition delete_api_crops :=
  delete_record cropsFilePath "crop_code" "Crop record not found"
    "Crop record deleted successfully" "Failed to delete crop record".

End Server.

(** ** The profile table and its endpoints

    The relational store is modelled by the table [user_details] itself: a
    list of rows, each row the JSON object the client returns for it.  A
    request to the store succeeds unless its cardinality modifier
    ([single], [maybeSingle]) rejects the result.  Columns the database
    fills in on its own (the surrogate [id]) are not modelled. *)

Module Store.

Definition row : Type := list (string * json).


(** [.eq(column, value)]: the value travels as text and a row matches when
    its column, as text, is that text. *)
Definition eq (column value : string) (r : row) : bool :=
  match own column r with
  | Some (JStr s) => String.eqb s value
  | Some (JNum n) => String.eqb (pretty n) value
  | _ => false
  end.

(** [.ilike(column, pattern)] for a pattern without wild cards: equality
    of text up to the case of ASCII letters. *)
Definition ilike (column pattern : string) (r : row) : bool :=
  match own column r with
  | Some (JStr s) => String.eqb (Case.fold s) (Case.fold pattern)
  | _ => false
  end.


(** [.maybeSingle()]: no row is [data: null], more than one is an error
    (the outer [None]). *)
Definition maybeSingle (rows : list row) : option (option row) :=
  match rows with
  | [] => Some None
  | [r] => Some (Some r)
  | _ => None
  end.






End Store.

Module Profiles.
Import Store.

Definition u_en : string := "உ_எண்".




(** [app.get("/get-all-users")] and [app.get("/get-all-usersAH")]: the
    filter is applied only when the query value, lowered, is the
    endpoint's own tag. *)
Definition get_all (rt : JS.Runtime) (tag : string) (req : request) (t : list row)
  : response :=
  let loantype := loantype_query req in
  let filtered : option (list row) :=
    match loantype with
    | QAbsent => Some t
    | QText s =>
        if negb (String.eqb s "") && String.eqb (JS.toLowerCase rt s) tag
        then Some (filter (ilike "loantype" tag) t)
        else Some t
    | QNested => None
    end in
  match filtered with
  | None =>
      {| status := 500;
         payload := JObj [("success"%string, JBool false);
                          ("error"%string, JStr "Server crashed. Check logs.")] |}
  | Some data =>
      {| status := 200;
         payload := JObj [("success"%string, JBool true);
                          ("users"%string, JArr (map JObj data));
                          ("total"%string, JNum (Z.of_nat (length data)))] |}
  end.

Definition get_all_usersAH (rt : JS.Runtime) := get_all rt "kccah".
Definition get_all_users (rt : JS.Runtime) := get_all rt "kcc".

(** [app.get("/api/user-data/:uNumber")] and
    [app.get("/api/user-data-kccah/:uNumber")] (the [details] text of the
    500 answer elided). *)
Definition user_data (tag rejection : string) (req : request) (t : list row) : response :=
  let uNumber := param req in
  match maybeSingle (filter (eq u_en uNumber) t) with
  | None =>
      {| status := 500; payload := JObj [("message"%string, JStr "சேமிப்பக பிழை")] |}
  | Some None =>
      {| status := 404; payload := message_body "பயனர் கிடைக்கவில்லை" |}
  | Some (Some data) =>
      if JS.truthy (own "loantype" data) && JS.strict_ne_str (own "loantype" data) tag
      then {| status := 400; payload := message_body rejection |}
      else {| status := 200; payload := JObj data |}
  end.

Definition get_api_user_data := user_data "KCC" "இந்த உ_எண் NO IN KCC ".
Definition get_api_user_data_kccah := user_data "KCCAH" "இந்த உ_எண் NO IN KCCAH ".

End Profiles.

(** ** Routing by collection *)

(** The collections with per-record identity, and the two loan datasets. *)
Inductive collection : Type := gold | animal | crops.
Inductive dataset : Type := kccdata | kccahdata.

Section Routes.
Context (rt : JS.Runtime).

Definition path_of (c : collection) : string :=
  match c with
  | gold => dataFilePath rt
  | animal => animalFilePath rt
  | crops => cropsFilePath rt
  end.

(** The identifying field. *)
Definition key_of (c : collection) : string :=
  match c with
  | gold | animal => "id"
  | crops => "crop_code"
  end.

Definition missing_of (c : collection) : string :=
  match c with
  | gold => "Record not found"
  | animal => "Animal record not found"
  | crops => "Crop record not found"
  end.

Definition get_api (c : collection) :=
  match c with
  | gold => get_api_gold rt
  | animal => get_api_animal rt
  | crops => get_api_crops rt
  end.

Definition post_api (c : collection) :=
  match c with
  | gold => post_api_gold rt
  | animal => post_api_animal rt
  | crops => post_api_crops rt
  end.

Definition put_api (c : collection) :=
  match c with
  | gold => put_api_gold rt
  | animal => put_api_animal rt
  | crops => put_api_crops rt
  end.

Definition delete_api (c : collection) :=
  match c with
  | gold => delete_api_gold rt
  | animal => delete_api_animal rt
  | crops => delete_api_crops rt
  end.

Definition dataset_path (d : dataset) : string :=
  match d with
  | kccdata => kccdataFilePath rt
  | kccahdata => kccahdataFilePath rt
  end.

Definition get_dataset (d : dataset) :=
  match d with
  | kccdata => get_api_kccdata rt
  | kccahdata => get_api_kccahdata rt
  end.

Definition post_dataset (d : dataset) :=
  match d with
  | kccdata => post_api_kccdata rt
  | kccahdata => post_api_kccahdata rt
  end.

(** Requests served one after the other, each to completion. *)
Fixpoint serve (h : request -> gmap string file -> response * gmap string file)
    (reqs : list request) (fs : gmap string file)
  : list response * gmap string file :=
  match reqs with
  | [] => ([], fs)
  | req :: rest =>
      let (r, fs') := h req fs in
      let (rs, fs'') := serve h rest fs' in
      (r :: rs, fs'')
  end.

Inductive method : Type := POST | PUT | DELETE.

Definition route (c : collection) (m : method) :=
  match m with
  | POST => post_api c
  | PUT => put_api c
  | DELETE => delete_api c
  end.

(** A sequence of create, replace and delete requests on one collection. *)
Fixpoint run (c : collection) (ops : list (method * request)) (fs : gmap string file)
  : gmap string file :=
  match ops with
  | [] => fs
  | (m, req) :: rest => run c rest (route c m req fs).2
  end.
End Routes.

(** ** Vocabulary of the specification *)

(** The identifying-field value of a stored record, if it has one. *)
Definition identifier (key : string) (item : json) : option json :=
  default None (JS.get key item).

(** The identifying-field values present in a collection. *)
Definition identifiers (key : string) (items : list json) : list json :=
  omap (identifier key) items.

(** A record is any document but [null]. *)
Definition record (item : json) : Prop := item <> JNull.

Definition is_object (v : json) : bool :=
  match v with
  | JObj _ => true
  | _ => false
  end.

(** The integer identifiers among the stored records. *)
Definition ids (key : string) (items : list json) : list Z :=
  omap (fun item => match identifier key item with
                    | Some (JNum n) => Some n
                    | _ => None
                    end) items.

(** Every stored record is not [null] and carries, if anything, an integer
    in its identifying field: what creates and replacements leave behind. *)
Definition stamped (key : string) (items : list json) : Prop :=
  Forall (fun item => record item /\
            (identifier key item = None \/ exists n, identifier key item = Some (JNum n)))
         items.

(** [item.key === id] on a record. *)
Definition matches (key : string) (id : option Z) (item : json) : bool :=
  match id with
  | Some n => JS.strict_eq_num (identifier key item) n
  | None => false
  end.

(** The records present in a collection file; a missing file has none, a
    file that is not a JSON array is not a collection. *)
Definition records_in (path : string) (fs : gmap string file) : option (list json) :=
  match fs !! path with
  | None => Some []
  | Some (Document (JArr items)) => Some items
  | Some _ => None
  end.

(** The collection is empty: its file is absent or holds [[]]. *)
Definition empty_collection (path : string) (fs : gmap string file) : Prop :=
  records_in path fs = Some [].

(** The invariant of a collection built through the endpoints. *)
Definition sound (key : string) (items : list json) : Prop :=
  stamped key items /\ NoDup (ids key items).

(** ** Routing by loan type *)

Inductive loan : Type := KCC | KCCAH.

Definition tag_of (l : loan) : string :=
  match l with
  | KCC => "KCC"
  | KCCAH => "KCCAH"
  end.

Definition get_all_of (rt : JS.Runtime) (l : loan) :=
  match l with
  | KCC => Profiles.get_all_users rt
  | KCCAH => Profiles.get_all_usersAH rt
  end.

Definition user_data_of (l : loan) :=
  match l with
  | KCC => Profiles.get_api_user_data
  | KCCAH => Profiles.get_api_user_data_kccah
  end.

Definition rejection_of (l : loan) : string :=
  match l with
  | KCC => "இந்த உ_எண் NO IN KCC "
  | KCCAH => "இந்த உ_எண் NO IN KCCAH "
  end.

(** The body of a successful listing: the rows and their number. *)
Definition listing (rows : list Store.row) : response :=
  {| status := 200;
     payload := JObj [("success"%string, JBool true);
                      ("users"%string, JArr (map JObj rows));
                      ("total"%string, JNum (Z.of_nat (length rows)))] |}.

(** C1 as the specification words it: the nth create (counting from one)
    answers 201 with n in the identifying field. *)
Definition nth_create_gets_n (rt : JS.Runtime) (c : collection)
    (reqs : list request) (fs : gmap string file) : Prop :=
  forall (n : nat) (req : request),
    reqs !! n = Some req ->
    exists r,
      (serve (post_api rt c) reqs fs).1 !! n = Some r /\
      status r = 201 /\
      identifier (key_of c) (payload r) = Some (JNum (Z.of_nat n + 1)).

(** C4 as the specification words it: on a present id the answer is the
    body re-stamped, it carries the path's id, and it is what is stored in
    place of the record found. *)
Definition replace_restamps (rt : JS.Runtime) (c : collection)
    (req : request) (fs : gmap string file) : Prop :=
  forall (items : list json) (n : Z),
    fs !! path_of rt c = Some (Document (JArr items)) ->
    Forall record items ->
    JS.parseInt rt (param req) = Some n ->
    JNum n ∈ identifiers (key_of c) items ->
    exists (r : json) (i : nat) (old : json),
      put_api rt c req fs =
        ({| status := 200; payload := r |},
         <[path_of rt c := Document (JArr (<[i := r]> items))]> fs) /\
      JS.set (key_of c) (JNum n) (body req) = Some r /\
      identifier (key_of c) r = Some (JNum n) /\
      items !! i = Some old /\
      identifier (key_of c) old = Some (JNum n).

(** C7 as the specification words it. *)
Definition filters_by_supplied_value (rt : JS.Runtime) (l : loan) (req : request)
    (t : list Store.row) : Prop :=
  get_all_of rt l req t =
    listing match loantype_query req with
            | QText s => filter (Store.ilike "loantype" s) t
            | _ => t
            end.

(** C8 as the specification words it. *)
Definition rejects_other_loan_type (l : loan) (req : request) (t : list Store.row)
  : Prop :=
  (filter (Store.eq Profiles.u_en (param req)) t = [] ->
   status (user_data_of l req t) = 404) /\
  (forall r,
     filter (Store.eq Profiles.u_en (param req)) t = [r] ->
     own "loantype" r <> Some (JStr (tag_of l)) ->
     user_data_of l req t = {| status := 400; payload := message_body (rejection_of l) |}).

(** ** The body parser

    [app.use(express.json({ limit: "1000mb" }))] runs before every handler,
    here on a payload sent as JSON text: a payload of more than 1000 MiB is
    refused; a payload of no unit at all is read as [{}]; any other payload
    goes to [JSON.parse] and, the parser being strict, is refused unless it
    is an object or an array.  A refused request ends in the fallback error
    handler without reaching its handler. *)







(** ** Sample deployments, requests and stores

    [StringToNumber] is never consulted on them: the identifiers are
    numbers. *)

(** A deployment: the order of strings is unit by unit, [parseInt] reads
    as [ParseInt.parseInt] and [toLowerCase] is [Case.toLowerCase]. *)
Definition deployment (vercel : bool) (dir : string) (number : string -> option Z)
  : JS.Runtime :=
  {| JS.isVercel := vercel;
     JS.dirname := dir;
     JS.StringToNumber := number;
     JS.StringLessThan := JS.string_lt;
     JS.parseInt := ParseInt.parseInt;
     JS.toLowerCase := Case.toLowerCase;
     JS.toLowerCase_plain := fun s (H : Case.plain s = true) =>
       @eq_ind_r bool true
         (fun b : bool => (if b then Case.fold s else Case.lowered s) = Case.fold s)
         eq_refl (Case.plain s) H |}.

(** A deployment on Vercel. *)
Definition demo : JS.Runtime := deployment true "/app" (fun _ => None).

(** A local deployment, the module under [/app]. *)
Definition local : JS.Runtime := deployment false "/app" (fun _ => None).

Definition request_of (p : string) (b : json) : request :=
  {| param := p; body := b; loantype_query := QAbsent |}.

Definition query_of (q : qparam) : request :=
  {| param := ""; body := JObj []; loantype_query := q |}.

Definition amount (n : Z) : json := JObj [("amount"%string, JNum n)].

Definition profile (u : string) (loantype : json) : Store.row :=
  [(Profiles.u_en, JStr u); ("loantype"%string, loantype)].

Definition amount_id (n id : Z) : json :=
  JObj [("amount"%string, JNum n); ("id"%string, JNum id)].

Definition two_creates : list request :=
  [request_of "" (amount 5); request_of "" (amount 7)].

Definition one_gold : gmap string file :=
  {[ dataFilePath demo := Document (JArr [amount_id 5 1]) ]}.

Definition two_gold : gmap string file :=
  {[ dataFilePath demo := Document (JArr [amount_id 5 1; amount_id 7 2]) ]}.

Definition no_animal : gmap string file := {[ animalFilePath demo := Document (JArr []) ]}.

Definition two_profiles : list Store.row :=
  [profile "1" (JStr "KCC"); profile "2" (JStr "KCCAH")].



Definition mixed_traffic : list (method * request) :=
  [ (POST, request_of "" (amount 5));
    (POST, request_of "" (JArr [JNum 1]));
    (POST, request_of "" (amount 7));
    (PUT, request_of "2" (JObj [("id"%string, JNum 1)]));
    (DELETE, request_of "1" JNull);
    (POST, request_of "" (amount 9)) ].

(** ** Further endpoints and observations *)



(** The answers of a sequence of create, replace and delete requests on
    one collection, each with its method. *)
Fixpoint answers (rt : JS.Runtime) (c : collection) (ops : list (method * request))
    (fs : gmap string file) : list (method * response) :=
  match ops with
  | [] => []
  | (m, req) :: rest =>
      (m, (route rt c m req fs).1) :: answers rt c rest (route rt c m req fs).2
  end.

(** A create that was answered 201, a delete that was answered 200. *)
Definition created (a : method * response) : bool :=
  match a.1 with
  | POST => status a.2 =? 201
  | _ => false
  end.

Definition deleted (a : method * response) : bool :=
  match a.1 with
  | DELETE => status a.2 =? 200
  | _ => false
  end.

(** The request succeeded: 200 or 201. *)
Definition succeeded (r : response) : bool :=
  (status r =? 200) || (status r =? 201).

(** The files the handlers read. *)
Definition handler_paths (rt : JS.Runtime) : list string :=
  [dataFilePath rt; animalFilePath rt; cropsFilePath rt;
   kccdataFilePath rt; kccahdataFilePath rt].



(** A deployment whose [StringToNumber] reads ["5"] (and only it). *)
Definition reads_five : JS.Runtime :=
  deployment true "/app" (fun s => if String.eqb s "5" then Some 5 else None).

Definition string_gold : gmap string file :=
  {[ dataFilePath reads_five :=
       Document (JArr ([amount_id 5 1] ++ [JObj [("id"%string, JStr "5")]])) ]}.

(** * Proofs *)

(** ** A written document is read back *)

Section Text.

Import JSON.

Lemma append_cons (x : ascii) (a b : string) : String x a +:+ b = String x (a +:+ b).
Proof. reflexivity. Qed.

Lemma append_nil_l (b : string) : "" +:+ b = b.
Proof. reflexivity. Qed.

Lemma append_assoc (a b c : string) : (a +:+ b) +:+ c = a +:+ (b +:+ c).
Proof. induction a as [|x a IH]; [done | by rewrite !append_cons, IH]. Qed.

Lemma append_nil_r (a : string) : a +:+ "" = a.
Proof. induction a as [|x a IH]; [done | by rewrite append_cons, IH]. Qed.

Lemma blank_app (a b : string) : blank a = true -> blank b = true -> blank (a +:+ b) = true.
Proof.
  induction a as [|x a IH]; [done|]. rewrite append_cons. simpl.
  intros [-> Ha]%andb_true_iff Hb. simpl. by apply IH.
Qed.

Lemma lex_blank (indent s : string) :
  blank indent = true -> lex Idle (indent +:+ s) = lex Idle s.
Proof.
  induction indent as [|c indent IH]; [done|]. rewrite append_cons. simpl.
  intros [Hc Hi]%andb_true_iff. rewrite Hc. by apply IH.
Qed.

Lemma json_nested_ind (P : json -> Prop) :
  P JNull -> (forall b, P (JBool b)) -> (forall n, P (JNum n)) ->
  (forall s, P (JStr s)) ->
  (forall items, Forall P items -> P (JArr items)) ->
  (forall fields, Forall (fun kv => P kv.2) fields -> P (JObj fields)) ->
  forall v, P v.
Proof.
  intros Hnull Hbool Hnum Hstr Harr Hobj.
  fix IH 1. intros [| b | n | s | items | fields].
  - exact Hnull.
  - apply Hbool.
  - apply Hnum.
  - apply Hstr.
  - apply Harr. induction items as [|x items IHl]; constructor; [apply IH | exact IHl].
  - apply Hobj. induction fields as [|[k x] fields IHl]; constructor;
      [apply IH | exact IHl].
Qed.

(** *** Numbers *)

Lemma digit_pretty_N_char (m : N) :
  (m < 10)%N -> digit (pretty_N_char m) = Some (Z.of_N m).
Proof.
  intros Hm.
  assert (m = 0 \/ m = 1 \/ m = 2 \/ m = 3 \/ m = 4 \/ m = 5 \/ m = 6 \/ m = 7
          \/ m = 8 \/ m = 9)%N as Hcases by lia.
  repeat destruct Hcases as [-> | Hcases]; try subst m; reflexivity.
Qed.

Lemma lex_digit (negative : bool) (value : option Z) (c : ascii) (d : Z) (s : string) :
  digit c = Some d -> value <> Some 0 ->
  lex (Digits negative value) (String c s) =
    lex (Digits negative (Some (default 0 value * 10 + d))) s.
Proof.
  intros Hd Hv. cbn [lex]. rewrite Hd.
  destruct value as [[| p | p]|]; done.
Qed.

Lemma lex_pretty_N_go (negative : bool) (x : N) : forall s,
  lex (Digits negative None) (pretty_N_go x s) =
    lex (Digits negative (if decide (x = 0%N) then None else Some (Z.of_N x))) s.
Proof.
  induction (N.lt_wf_0 x) as [x _ IH]; intros s.
  destruct (decide (x = 0%N)) as [-> | Hx]; [by rewrite pretty_N_go_0|].
  rewrite pretty_N_go_step by lia.
  rewrite IH by (apply N.div_lt; lia).
  pose proof (N.div_mod x 10 ltac:(lia)) as Hdm.
  rewrite (lex_digit _ _ _ (Z.of_N (x `mod` 10))).
  - f_equal. f_equal. f_equal.
    destruct (decide (x `div` 10 = 0)%N) as [Hd | Hd]; simpl; [rewrite Hd in Hdm|]; lia.
  - apply digit_pretty_N_char, N.mod_lt. lia.
  - destruct (decide (x `div` 10 = 0)%N); [done|]. intros [= ?]. lia.
Qed.

Lemma pretty_N_go_app (x : N) : forall s rest,
  pretty_N_go x s +:+ rest = pretty_N_go x (s +:+ rest).
Proof.
  induction (N.lt_wf_0 x) as [x _ IH]; intros s rest.
  destruct (decide (x = 0%N)) as [-> | Hx]; [by rewrite !pretty_N_go_0|].
  rewrite (pretty_N_go_step x s), (pretty_N_go_step x (s +:+ rest)) by lia.
  rewrite IH by (apply N.div_lt; lia). reflexivity.
Qed.

Lemma lex_number_end (negative : bool) (n : Z) (rest : string) :
  delimited rest ->
  lex (Digits negative (Some n)) rest = (Num (signed negative n) ::.) <$> lex Idle rest.
Proof.
  destruct rest as [|c rest]; [done|]. intros Hc. cbn [lex]. by rewrite Hc.
Qed.

Lemma lex_first_digit (c : ascii) (d : Z) (s : string) :
  digit c = Some d ->
  lex Idle (String c s) = lex (Digits false None) (String c s).
Proof.
  destruct c as [[] [] [] [] [] [] [] []]; intros Hd;
    try (by vm_compute in Hd); reflexivity.
Qed.

Lemma pretty_N_go_first (x : N) : forall s,
  (0 < x)%N ->
  exists c rest d, pretty_N_go x s = String c rest /\ digit c = Some d.
Proof.
  induction (N.lt_wf_0 x) as [x _ IH]; intros s Hx.
  rewrite pretty_N_go_step by done.
  destruct (decide (x `div` 10 = 0)%N) as [Hd | Hd].
  - rewrite Hd, pretty_N_go_0. eexists _, _, _. split; [done|].
    apply digit_pretty_N_char, N.mod_lt. lia.
  - assert (Hlt : (x `div` 10 < x)%N) by (apply N.div_lt; lia).
    assert (Hpos : (0 < x `div` 10)%N) by (apply N.neq_0_lt_0; exact Hd).
    by apply IH.
Qed.

Lemma lex_positive (negative : bool) (p : positive) (rest : string) :
  delimited rest ->
  lex (Digits negative None) (pretty (N.pos p) +:+ rest) =
    (Num (signed negative (Z.pos p)) ::.) <$> lex Idle rest.
Proof.
  intros Hrest. unfold pretty, pretty_N. rewrite decide_False by done.
  rewrite pretty_N_go_app, lex_pretty_N_go, decide_False by done.
  by apply lex_number_end.
Qed.

Lemma lex_num (n : Z) (rest : string) :
  delimited rest ->
  lex Idle (pretty n +:+ rest) = (Num n ::.) <$> lex Idle rest.
Proof.
  intros Hrest. destruct n as [| p | p].
  - change (pretty 0 +:+ rest) with (String "0" rest).
    change (lex Idle (String "0" rest)) with (lex (Digits false (Some 0)) rest).
    by apply lex_number_end.
  - change (pretty (Z.pos p)) with (pretty (N.pos p)).
    destruct (pretty_N_go_first (N.pos p) rest ltac:(lia)) as (c & k & d & Heq & Hd).
    pose proof (lex_positive false p rest Hrest) as Hlex.
    unfold pretty, pretty_N in Hlex |- *. rewrite decide_False in Hlex |- * by done.
    rewrite pretty_N_go_app, append_nil_l in Hlex |- *.
    rewrite Heq in Hlex |- *. by rewrite (lex_first_digit c d).
  - change (pretty (Z.neg p)) with ("-" +:+ pretty (N.pos p)).
    change (lex Idle (("-" +:+ pretty (N.pos p)) +:+ rest))
      with (lex (Digits true None) (pretty (N.pos p) +:+ rest)).
    by apply lex_positive.
Qed.

(** *** Strings *)

Lemma lex_escape (c : ascii) (read k : string) :
  lex (Text read) (escape c +:+ k) = lex (Text (read +:+ String c "")) k.
Proof. destruct c as [[] [] [] [] [] [] [] []]; reflexivity. Qed.

Lemma lex_escaped (s : string) : forall read rest,
  lex (Text read) (escaped s +:+ String quotation rest) =
    (Str (read +:+ s) ::.) <$> lex Idle rest.
Proof.
  induction s as [|c s IH]; intros read rest.
  - by rewrite append_nil_r.
  - cbn [escaped]. rewrite append_assoc, lex_escape, IH, append_assoc. done.
Qed.

Lemma lex_quote (s rest : string) :
  lex Idle (quote s +:+ rest) = (Str s ::.) <$> lex Idle rest.
Proof.
  unfold quote.
  change (lex Idle (String quotation (escaped s +:+ String quotation "") +:+ rest))
    with (lex (Text "") ((escaped s +:+ String quotation "") +:+ rest)).
  rewrite append_assoc. apply lex_escaped.
Qed.

(** *** Documents *)

Lemma fmap_app_cons (a b : list token) (t : token) (o : option (list token)) :
  (a ++.) <$> ((t ::.) <$> ((b ++.) <$> o)) = ((a ++ t :: b) ++.) <$> o.
Proof. destruct o as [l|]; simpl; [|done]. by rewrite <- app_assoc. Qed.

(** Texts that spell token runs, joined by a comma and a new line, spell
    the runs joined by commas. *)
Lemma lex_concat (inner : string) (texts : list string) (runs : list (list token)) :
  blank inner = true ->
  Forall2 (fun text run => forall rest, delimited rest ->
             lex Idle (text +:+ rest) = (run ++.) <$> lex Idle rest) texts runs ->
  texts <> [] ->
  forall rest, delimited rest ->
    lex Idle (String.concat ("," +:+ newline +:+ inner) texts +:+ rest) =
      (separated runs ++.) <$> lex Idle rest.
Proof.
  intros Hinner Hall. induction Hall as [|text run texts runs Hhead Hall IH]; [done|].
  intros _ rest Hrest. destruct Hall as [|text' run' texts runs Hnext Hall].
  - by apply Hhead.
  - change (String.concat ("," +:+ newline +:+ inner) (text :: text' :: texts))
      with (text +:+ ("," +:+ newline +:+ inner) +:+
            String.concat ("," +:+ newline +:+ inner) (text' :: texts)).
    change (separated (run :: run' :: runs))
      with (run ++ Comma :: separated (run' :: runs)).
    rewrite !append_assoc. rewrite Hhead by reflexivity.
    change (lex Idle ("," +:+ newline +:+ inner +:+
              String.concat ("," +:+ newline +:+ inner) (text' :: texts) +:+ rest))
      with ((Comma ::.) <$> lex Idle (inner +:+
              String.concat ("," +:+ newline +:+ inner) (text' :: texts) +:+ rest)).
    rewrite lex_blank by done. rewrite IH by done. apply fmap_app_cons.
Qed.

Lemma lex_stringify_at (v : json) : forall indent rest,
  blank indent = true -> delimited rest ->
  lex Idle (stringify_at indent v +:+ rest) = (tokens v ++.) <$> lex Idle rest.
Proof.
  induction v as [| [] | n | s | items IH | fields IH] using json_nested_ind;
    intros indent rest Hindent Hrest; try reflexivity.
  - by apply lex_num.
  - apply lex_quote.
  - destruct items as [|x items].
    { change (lex Idle (stringify_at indent (JArr []) +:+ rest))
        with ((LBracket ::.) <$> ((RBracket ::.) <$> lex Idle rest)).
      by destruct (lex Idle rest). }
    assert (Hinner : blank (indent +:+ "  ") = true) by by apply blank_app.
    change (stringify_at indent (JArr (x :: items)))
      with ("[" +:+ newline +:+ (indent +:+ "  ") +:+
            String.concat ("," +:+ newline +:+ (indent +:+ "  "))
              (map (stringify_at (indent +:+ "  ")) (x :: items)) +:+
            newline +:+ indent +:+ "]").
    change (tokens (JArr (x :: items)))
      with (LBracket :: separated (map tokens (x :: items)) ++ [RBracket]).
    set (inner := indent +:+ "  ") in *.
    set (texts := map (stringify_at inner) (x :: items)).
    rewrite !append_assoc.
    change (lex Idle ("[" +:+ newline +:+ ?k)) with ((LBracket ::.) <$> lex Idle k).
    rewrite lex_blank by done.
    rewrite (lex_concat inner texts (map tokens (x :: items))); [|done| |done|reflexivity].
    + change (lex Idle (newline +:+ ?k)) with (lex Idle k).
      rewrite lex_blank by done.
      change (lex Idle ("]" +:+ rest)) with ((RBracket ::.) <$> lex Idle rest).
      destruct (lex Idle rest) as [l|]; simpl; [|done].
      by rewrite <- app_assoc.
    + apply Forall2_fmap, Forall_Forall2_diag.
      eapply Forall_impl; [exact IH|]. intros y Hy k Hk. by apply Hy.
  - destruct fields as [|x fields].
    { change (lex Idle (stringify_at indent (JObj []) +:+ rest))
        with ((LBrace ::.) <$> ((RBrace ::.) <$> lex Idle rest)).
      by destruct (lex Idle rest). }
    assert (Hinner : blank (indent +:+ "  ") = true) by by apply blank_app.
    change (stringify_at indent (JObj (x :: fields)))
      with ("{" +:+ newline +:+ (indent +:+ "  ") +:+
            String.concat ("," +:+ newline +:+ (indent +:+ "  "))
              (map (fun kv => quote kv.1 +:+ ": " +:+ stringify_at (indent +:+ "  ") kv.2)
                 (x :: fields)) +:+
            newline +:+ indent +:+ "}").
    change (tokens (JObj (x :: fields)))
      with (LBrace :: separated (map (fun kv => Str kv.1 :: Colon :: tokens kv.2)
                                   (x :: fields)) ++ [RBrace]).
    set (inner := indent +:+ "  ") in *.
    set (texts := map (fun kv => quote kv.1 +:+ ": " +:+ stringify_at inner kv.2)
                    (x :: fields)).
    set (runs := map (fun kv => Str kv.1 :: Colon :: tokens kv.2) (x :: fields)).
    rewrite !append_assoc.
    change (lex Idle ("{" +:+ newline +:+ ?k)) with ((LBrace ::.) <$> lex Idle k).
    rewrite lex_blank by done.
    rewrite (lex_concat inner texts runs); [|done| |done|reflexivity].
    + change (lex Idle (newline +:+ ?k)) with (lex Idle k).
      rewrite lex_blank by done.
      change (lex Idle ("}" +:+ rest)) with ((RBrace ::.) <$> lex Idle rest).
      destruct (lex Idle rest) as [l|]; simpl; [|done].
      by rewrite <- app_assoc.
    + apply Forall2_fmap, Forall_Forall2_diag.
      eapply Forall_impl; [exact IH|]. intros [key y] Hy k Hk.
      rewrite !append_assoc, lex_quote.
      change (lex Idle (": " +:+ ?t)) with ((Colon ::.) <$> lex Idle t).
      simpl in Hy. rewrite Hy by done.
      by destruct (lex Idle k).
Qed.

(** *** The value of the tokens *)

Lemma tokens_head (v : json) :
  exists t ts, tokens v = t :: ts /\ t <> RBracket.
Proof. destruct v; simpl; eauto. Qed.

Lemma elements_tokens (items : list json) :
  Forall (fun x => forall fuel k, (length (tokens x) <= fuel)%nat ->
            value fuel (tokens x ++ k) = Some (x, k)) items ->
  items <> [] ->
  forall fuel k,
    (list_sum (map (fun x => S (length (tokens x))) items) <= fuel)%nat ->
    elements fuel (separated (map tokens items) ++ RBracket :: k) = Some (items, k).
Proof.
  intros Hall. induction Hall as [|x items Hx Hall IH]; [done|].
  intros _ [|fuel] k Hfuel; [simpl in Hfuel; lia|].
  destruct items as [|y items].
  - cbn [map separated elements]. rewrite Hx by (simpl in Hfuel; lia). done.
  - change (separated (map tokens (x :: y :: items)))
      with (tokens x ++ Comma :: separated (map tokens (y :: items))).
    rewrite <- app_assoc. cbn [elements]. rewrite Hx by (simpl in Hfuel; lia).
    cbn [mbind option_bind app]. rewrite IH; [done|done|]. simpl in Hfuel |- *. lia.
Qed.

Lemma members_tokens (fields : list (string * json)) :
  Forall (fun kv => forall fuel k, (length (tokens kv.2) <= fuel)%nat ->
            value fuel (tokens kv.2 ++ k) = Some (kv.2, k)) fields ->
  fields <> [] ->
  forall fuel k,
    (list_sum (map (fun kv => S (S (S (length (tokens kv.2))))) fields) <= fuel)%nat ->
    members fuel
      (separated (map (fun kv => Str kv.1 :: Colon :: tokens kv.2) fields) ++ RBrace :: k)
      = Some (fields, k).
Proof.
  intros Hall. induction Hall as [|[key x] fields Hx Hall IH]; [done|].
  intros _ [|fuel] k Hfuel; [simpl in Hfuel; lia|].
  simpl in Hx. destruct fields as [|y fields].
  - cbn [map separated members fst snd app]. rewrite Hx by (simpl in Hfuel; lia). done.
  - change (separated (map (fun kv => Str kv.1 :: Colon :: tokens kv.2)
                         ((key, x) :: y :: fields)))
      with ((Str key :: Colon :: tokens x) ++
            Comma :: separated (map (fun kv => Str kv.1 :: Colon :: tokens kv.2)
                                  (y :: fields))).
    rewrite <- app_assoc. cbn [members app]. rewrite Hx by (simpl in Hfuel; lia).
    cbn [mbind option_bind app]. rewrite IH; [done|done|]. simpl in Hfuel |- *. lia.
Qed.

Lemma separated_length (runs : list (list token)) :
  runs <> [] ->
  S (length (separated runs)) = list_sum (map (fun run => S (length run)) runs).
Proof.
  induction runs as [|run runs IH]; [done|]. intros _.
  destruct runs as [|run' runs]; [simpl; lia|].
  change (separated (run :: run' :: runs)) with (run ++ Comma :: separated (run' :: runs)).
  rewrite length_app. cbn [length map list_sum fold_right] in IH |- *.
  specialize (IH ltac:(done)). lia.
Qed.

Lemma value_tokens (v : json) : forall fuel k,
  (length (tokens v) <= fuel)%nat -> value fuel (tokens v ++ k) = Some (v, k).
Proof.
  induction v as [| b | n | s | items IH | fields IH] using json_nested_ind;
    intros [|fuel] k Hfuel; try (simpl in Hfuel; lia); try reflexivity.
  - destruct items as [|x items]; [reflexivity|].
    change (tokens (JArr (x :: items)))
      with (LBracket :: separated (map tokens (x :: items)) ++ [RBracket]) in Hfuel |- *.
    cbn [length] in Hfuel. rewrite length_app in Hfuel. cbn [length] in Hfuel.
    pose proof (separated_length (map tokens (x :: items)) ltac:(done)) as Hlen.
    rewrite map_map in Hlen.
    pose proof (elements_tokens (x :: items) IH ltac:(done) fuel k ltac:(lia)) as Hel.
    rewrite <- app_comm_cons, <- app_assoc. cbn [app].
    destruct (tokens_head x) as (t & ts & Ht & Hne).
    cbn [map separated] in Hel |- *.
    destruct items as [|y items]; rewrite Ht in Hel |- *;
      cbn [app] in Hel |- *; cbn [value]; rewrite Hel; by destruct t.
  - destruct fields as [|[key x] fields]; [reflexivity|].
    change (tokens (JObj ((key, x) :: fields)))
      with (LBrace :: separated (map (fun kv => Str kv.1 :: Colon :: tokens kv.2)
                                   ((key, x) :: fields)) ++ [RBrace]) in Hfuel |- *.
    cbn [length] in Hfuel. rewrite length_app in Hfuel. cbn [length] in Hfuel.
    pose proof (separated_length
                  (map (fun kv => Str kv.1 :: Colon :: tokens kv.2) ((key, x) :: fields))
                  ltac:(done)) as Hlen.
    rewrite map_map in Hlen.
    assert (Hsum : (list_sum (map (fun kv => S (length (Str kv.1 :: Colon :: tokens kv.2)))
                                ((key, x) :: fields)) <= fuel)%nat) by lia.
    pose proof (members_tokens ((key, x) :: fields) IH ltac:(done) fuel k Hsum) as Hmem.
    rewrite <- app_comm_cons, <- app_assoc.
    destruct fields as [|y fields]; cbn [map separated fst snd app] in Hmem |- *;
      cbn [value]; by rewrite Hmem.
Qed.

Lemma parse_stringify (v : json) : parse (stringify v +:+ newline) = Some v.
Proof.
  unfold parse, stringify. rewrite lex_stringify_at by done.
  change (lex Idle newline) with (Some (@nil token)).
  cbn [fmap option_fmap option_map mbind option_bind].
  rewrite value_tokens; [done|]. rewrite length_app. lia.
Qed.

End Text.

Lemma stored_document (d : json) : stored d = Document d.
Proof. unfold stored, content. by rewrite parse_stringify. Qed.

Lemma writeJson_document (p : string) (d : json) (fs : gmap string file) :
  writeJson p d fs = (Some tt, <[p := Document d]> fs).
Proof. unfold writeJson. by rewrite stored_document. Qed.

#[local] Arguments stored : simpl never.


(** ** Lemmas on objects *)

Lemma own_assign k x fields : own k (assign k x fields) = Some x.
Proof.
  induction fields as [|[k' v] rest IH]; simpl.
  - by rewrite String.eqb_refl.
  - destruct (String.eqb k' k) eqn:E; simpl; by rewrite E.
Qed.

Lemma identifier_set_object key x fields :
  JS.set key x (JObj fields) = Some (JObj (assign key x fields)) /\
  identifier key (JObj (assign key x fields)) = Some x.
Proof. split; [done|]. unfold identifier; simpl. apply own_assign. Qed.

(** A body that is not an object comes back without the field. *)
Lemma identifier_set_other key x v r :
  is_object v = false -> JS.set key x v = Some r -> r = v /\ identifier key r = None.
Proof. destruct v; simpl; intros; simplify_eq; done. Qed.

Lemma set_record key x v r : JS.set key x v = Some r -> record r.
Proof. destruct v; simpl; intros; simplify_eq; done. Qed.

Lemma identifier_set key x v r :
  JS.set key x v = Some r -> identifier key r = Some x \/ identifier key r = None.
Proof.
  destruct v; simpl; intros; simplify_eq; auto.
  left. unfold identifier; simpl. apply own_assign.
Qed.

(** ** The largest identifier and the next one *)

Lemma get_identifier key item : record item -> JS.get key item = Some (identifier key item).
Proof. unfold identifier. destruct item; simpl; try done. Qed.

Lemma identifiers_ids key items :
  stamped key items -> identifiers key items = JNum <$> ids key items.
Proof.
  induction 1 as [|item rest [_ Hid] _ IH]; [done|].
  unfold identifiers, ids in *. simpl.
  destruct Hid as [-> | [n ->]]; simpl; [exact IH | f_equal; exact IH].
Qed.

Lemma stamped_app key l1 l2 : stamped key (l1 ++ l2) <-> stamped key l1 /\ stamped key l2.
Proof. apply Forall_app. Qed.

Lemma ids_app key l1 l2 : ids key (l1 ++ l2) = ids key l1 ++ ids key l2.
Proof. apply omap_app. Qed.

Section Largest.
Context (rt : JS.Runtime).

Lemma gt_numbers a m : JS.gt rt (Some (JNum a)) (Some (JNum m)) = Some (m <? a).
Proof. reflexivity. Qed.

Lemma larger_stamped key m item :
  record item ->
  (identifier key item = None \/ exists n, identifier key item = Some (JNum n)) ->
  larger rt key (JNum m) item =
    Some (JNum (match identifier key item with
                | Some (JNum n) => Z.max m n
                | _ => m
                end)).
Proof.
  intros Hrec Hid. unfold larger. rewrite (get_identifier _ _ Hrec). simpl.
  destruct Hid as [-> | [n ->]]; simpl; [done|].
  destruct (Z.ltb_spec m n); do 2 f_equal; lia.
Qed.

Lemma reduce_larger key items m :
  stamped key items ->
  reduce (larger rt key) items (JNum m) = Some (JNum (fold_left Z.max (ids key items) m)).
Proof.
  intros H. revert m. induction H as [|item rest [Hrec Hid] _ IH]; intros m; [done|].
  simpl. rewrite (larger_stamped _ _ _ Hrec Hid). simpl.
  rewrite IH. unfold ids. simpl.
  destruct Hid as [-> | [n ->]]; simpl; reflexivity.
Qed.

Lemma plus_one_number m : JS.plus_one rt (JNum m) = Some (JNum (m + 1)).
Proof. reflexivity. Qed.
End Largest.

Lemma fold_max_ge (l : list Z) m : m <= fold_left Z.max l m.
Proof. revert m. induction l as [|x l IH]; intros m; simpl; [lia|]. specialize (IH (Z.max m x)). lia. Qed.

Lemma fold_max_bound (l : list Z) m x : x ∈ l -> x <= fold_left Z.max l m.
Proof.
  revert m. induction l as [|y l IH]; intros m Hin; [by apply elem_of_nil in Hin|].
  apply elem_of_cons in Hin as [-> | Hin]; simpl.
  - pose proof (fold_max_ge l (Z.max m y)). lia.
  - by apply IH.
Qed.

(** The next identifier is not one of the present ones. *)
Lemma next_id_fresh (l : list Z) : fold_left Z.max l 0 + 1 ∉ l.
Proof. intros Hin. apply (fold_max_bound _ 0) in Hin. lia. Qed.

(** ** The handlers on a stored array *)

Section Handlers.
Context (rt : JS.Runtime).

Lemma list_records_eq path failed req fs :
  list_records path failed req fs =
    match fs !! path with
    | Some (Document data) => ({| status := 200; payload := data |}, fs)
    | _ => ({| status := 500; payload := error_body failed |}, fs)
    end.
Proof.
  unfold list_records, try_catch, mbind, io_bind, readJson.
  destruct (fs !! path) as [[|data]|]; reflexivity.
Qed.

Lemma create_record_eq path key failed req fs items :
  (fs !! path = None /\ items = [] \/ fs !! path = Some (Document (JArr items))) ->
  create_record rt path key failed req fs =
    match (maxId ← reduce (larger rt key) items (JNum 0);
           next ← JS.plus_one rt maxId;
           JS.set key next (body req)) with
    | Some newRecord =>
        ({| status := 201; payload := newRecord |},
         <[path := Document (JArr (items ++ [newRecord]))]> fs)
    | None => ({| status := 500; payload := error_body failed |}, fs)
    end.
Proof.
  intros Hfs.
  unfold create_record, try_catch, mbind, io_bind, pathExists, readJson, lift,
    writeJson, send, mret, io_ret.
  destruct Hfs as [[Hnone ->] | Hsome]; simpl.
  - rewrite Hnone. simpl. destruct (JS.set key (JNum (0 + 1)) (body req)); by rewrite ?stored_document.
  - rewrite bool_decide_eq_true_2 by (rewrite Hsome; eauto). simpl.
    rewrite Hsome. simpl.
    destruct (reduce (larger rt key) items (JNum 0)) as [maxId|]; simpl; [|done].
    destruct (JS.plus_one rt maxId) as [next|]; simpl; [|done].
    destruct (JS.set key next (body req)); by rewrite ?stored_document.
Qed.

Lemma replace_record_eq path key missing failed req fs items :
  fs !! path = Some (Document (JArr items)) ->
  replace_record rt path key missing failed req fs =
    match findIndex (has_key key (JS.parseInt rt (param req))) items with
    | None => ({| status := 500; payload := error_body failed |}, fs)
    | Some None => ({| status := 404; payload := error_body missing |}, fs)
    | Some (Some index) =>
        match JS.set key (number (JS.parseInt rt (param req))) (body req) with
        | Some updatedRecord =>
            ({| status := 200; payload := updatedRecord |},
             <[path := Document (JArr (<[index := updatedRecord]> items))]> fs)
        | None => ({| status := 500; payload := error_body failed |}, fs)
        end
    end.
Proof.
  intros Hfs.
  unfold replace_record, try_catch, mbind, io_bind, readJson, lift,
    writeJson, send, mret, io_ret.
  simpl. rewrite Hfs. simpl.
  destruct (findIndex _ items) as [[index|]|]; simpl; try reflexivity.
  destruct (JS.set key _ (body req)); by rewrite ?stored_document.
Qed.

Lemma delete_record_eq path key missing deleted failed req fs items :
  fs !! path = Some (Document (JArr items)) ->
  delete_record rt path key missing deleted failed req fs =
    match findIndex (has_key key (JS.parseInt rt (param req))) items with
    | None => ({| status := 500; payload := error_body failed |}, fs)
    | Some None => ({| status := 404; payload := error_body missing |}, fs)
    | Some (Some index) =>
        ({| status := 200; payload := message_body deleted |},
         <[path := Document (JArr (delete index items))]> fs)
    end.
Proof.
  intros Hfs.
  unfold delete_record, try_catch, mbind, io_bind, readJson, lift,
    writeJson, send, mret, io_ret.
  simpl. rewrite Hfs. simpl.
  destruct (findIndex _ items) as [[index|]|]; by rewrite ?stored_document.
Qed.

(** Without a readable file, replace and delete answer 500 and write
    nothing. *)
Lemma replace_record_unreadable path key missing failed req fs :
  (forall items, fs !! path <> Some (Document (JArr items))) ->
  (replace_record rt path key missing failed req fs).2 = fs.
Proof.
  intros Hfs.
  unfold replace_record, try_catch, mbind, io_bind, readJson, lift.
  destruct (fs !! path) as [[|[]]|] eqn:E; try reflexivity.
  by destruct (Hfs items).
Qed.

Lemma delete_record_unreadable path key missing deleted failed req fs :
  (forall items, fs !! path <> Some (Document (JArr items))) ->
  (delete_record rt path key missing deleted failed req fs).2 = fs.
Proof.
  intros Hfs.
  unfold delete_record, try_catch, mbind, io_bind, readJson, lift.
  destruct (fs !! path) as [[|[]]|] eqn:E; try reflexivity.
  by destruct (Hfs items).
Qed.

Lemma post_api_eq c :
  exists failed, post_api rt c = create_record rt (path_of rt c) (key_of c) failed.
Proof. destruct c; eexists; reflexivity. Qed.

Lemma put_api_eq c :
  exists failed,
    put_api rt c = replace_record rt (path_of rt c) (key_of c) (missing_of c) failed.
Proof. destruct c; eexists; reflexivity. Qed.

Lemma delete_api_eq c :
  exists deleted failed,
    delete_api rt c =
      delete_record rt (path_of rt c) (key_of c) (missing_of c) deleted failed.
Proof. destruct c; do 2 eexists; reflexivity. Qed.
End Handlers.

(** ** [findIndex] with the identifier test *)

Lemma has_key_record key id item :
  record item -> has_key key id item = Some (matches key id item).
Proof. intros H. unfold has_key. by rewrite (get_identifier _ _ H). Qed.

Lemma matches_spec key id item :
  matches key id item = true <->
  exists n, id = Some n /\ identifier key item = Some (JNum n).
Proof.
  unfold matches, JS.strict_eq_num. split.
  - destruct id as [n|]; [|done]. destruct (identifier key item) as [[]|]; try done.
    intros ->%Z.eqb_eq. eauto.
  - intros (n & -> & ->). apply Z.eqb_refl.
Qed.

(** An index found is the first record carrying the identifier. *)
Lemma findIndex_found key id items i :
  findIndex (has_key key id) items = Some (Some i) ->
  exists item, items !! i = Some item /\ matches key id item = true /\
    Forall (fun item' => matches key id item' = false) (take i items).
Proof.
  revert i. induction items as [|item rest IH]; intros i; [done|]. simpl.
  destruct (has_key key id item) as [b|] eqn:Hb; [|done]. simpl.
  assert (b = matches key id item) as ->.
  { unfold has_key in Hb. destruct item; simpl in Hb; try done; by simplify_eq. }
  destruct (matches key id item) eqn:Hm.
  - intros [= <-]. exists item. simpl. auto.
  - destruct (findIndex (has_key key id) rest) as [[j|]|]; simpl; try done.
    intros [= <-]. destruct (IH j eq_refl) as (item' & ? & ? & ?).
    exists item'. simpl. auto.
Qed.

Lemma findIndex_absent key id items :
  Forall record items ->
  Forall (fun item => matches key id item = false) items ->
  findIndex (has_key key id) items = Some None.
Proof.
  induction 1 as [|item rest Hrec _ IH]; [done|].
  intros [Hm Hrest]%Forall_cons. simpl.
  rewrite (has_key_record _ _ _ Hrec), Hm. simpl. by rewrite (IH Hrest).
Qed.

Lemma findIndex_present key id items :
  Forall record items ->
  Exists (fun item => matches key id item = true) items ->
  exists i, findIndex (has_key key id) items = Some (Some i).
Proof.
  induction 1 as [|item rest Hrec _ IH]; intros Hex; [by apply Exists_nil in Hex|].
  simpl. rewrite (has_key_record _ _ _ Hrec). simpl.
  destruct (matches key id item) eqn:Hm; [by eexists|].
  apply Exists_cons in Hex as [Hex | Hex]; [congruence|].
  destruct (IH Hex) as [i ->]. by eexists.
Qed.

(** ** Well-formed collections are preserved *)

Lemma records_in_cases path fs items :
  records_in path fs = Some items ->
  fs !! path = None /\ items = [] \/ fs !! path = Some (Document (JArr items)).
Proof.
  unfold records_in. destruct (fs !! path) as [[|[]]|]; intros; simplify_eq; auto.
Qed.

Lemma records_in_insert path items fs :
  records_in path (<[path := Document (JArr items)]> fs) = Some items.
Proof. unfold records_in. by rewrite lookup_insert_eq. Qed.

Lemma ids_singleton key x v r :
  JS.set key (JNum x) v = Some r -> ids key [r] = [x] \/ ids key [r] = [].
Proof.
  intros H. destruct (identifier_set _ _ _ _ H) as [E|E]; unfold ids; simpl; rewrite E; auto.
Qed.

Lemma stamped_singleton key x v r : JS.set key (JNum x) v = Some r -> stamped key [r].
Proof.
  intros H. apply Forall_singleton. split; [by eapply set_record|].
  destruct (identifier_set _ _ _ _ H); eauto.
Qed.

Lemma ids_of_match key n item :
  identifier key item = Some (JNum n) -> ids key [item] = [n].
Proof. intros E. unfold ids. simpl. by rewrite E. Qed.

Lemma ids_cons key item rest : ids key (item :: rest) = ids key [item] ++ ids key rest.
Proof. apply (ids_app key [item]). Qed.

Section Preservation.
Context (rt : JS.Runtime).

Lemma create_record_sound path key failed req fs items :
  records_in path fs = Some items -> sound key items ->
  exists items',
    records_in path (create_record rt path key failed req fs).2 = Some items' /\
    sound key items'.
Proof.
  intros Hfs [Hst Hnd].
  rewrite (create_record_eq rt _ _ _ _ _ _ (records_in_cases _ _ _ Hfs)).
  rewrite (reduce_larger rt _ _ _ Hst). simpl.
  destruct (JS.set key _ (body req)) as [r|] eqn:Hset; simpl; [|by exists items].
  exists (items ++ [r]). split; [apply records_in_insert|]. split.
  - apply stamped_app. split; [done|]. by eapply stamped_singleton.
  - rewrite ids_app. destruct (ids_singleton _ _ _ _ Hset) as [-> | ->].
    + apply NoDup_app. split_and!; [done| |apply NoDup_singleton].
      intros x Hx ->%list_elem_of_singleton. by apply next_id_fresh in Hx.
    + by rewrite app_nil_r.
Qed.

Lemma replace_record_sound path key missing failed req fs items :
  records_in path fs = Some items -> sound key items ->
  exists items',
    records_in path (replace_record rt path key missing failed req fs).2 = Some items' /\
    sound key items'.
Proof.
  intros Hfs [Hst Hnd].
  destruct (records_in_cases _ _ _ Hfs) as [[Hnone ->] | Hsome].
  { rewrite replace_record_unreadable by (intros ?; congruence). by exists []. }
  rewrite (replace_record_eq _ _ _ _ _ _ _ _ Hsome).
  destruct (findIndex _ items) as [[i|]|] eqn:Hfind; simpl; try by exists items.
  destruct (JS.set key _ (body req)) as [r|] eqn:Hset; simpl; [|by exists items].
  destruct (findIndex_found _ _ _ _ Hfind) as (old & Hold & Hm & _).
  apply matches_spec in Hm as (n & Hn & Hid). rewrite Hn in Hset. simpl in Hset.
  exists (<[i := r]> items). split; [apply records_in_insert|].
  rewrite insert_take_drop by (by eapply lookup_lt_Some).
  rewrite <- (take_drop_middle _ _ _ Hold) in Hst, Hnd.
  apply stamped_app in Hst as [Hst1 [_ Hst2]%Forall_cons].
  rewrite ids_app, ids_cons, (ids_of_match _ _ _ Hid) in Hnd.
  split.
  - apply stamped_app. split; [done|]. apply (stamped_app _ [r] (drop (S i) items)).
    split; [by eapply stamped_singleton | done].
  - rewrite ids_app, ids_cons.
    destruct (ids_singleton _ _ _ _ Hset) as [-> | ->]; [done|].
    simpl in *. apply NoDup_app in Hnd as (? & Hno & [_ ?]%NoDup_cons).
    apply NoDup_app. split_and!; [done| |done].
    intros x Hx Hx'. apply (Hno x Hx). by right.
Qed.

Lemma delete_record_sound path key missing deleted failed req fs items :
  records_in path fs = Some items -> sound key items ->
  exists items',
    records_in path (delete_record rt path key missing deleted failed req fs).2
      = Some items' /\
    sound key items'.
Proof.
  intros Hfs [Hst Hnd].
  destruct (records_in_cases _ _ _ Hfs) as [[Hnone ->] | Hsome].
  { rewrite delete_record_unreadable by (intros ?; congruence). by exists []. }
  rewrite (delete_record_eq _ _ _ _ _ _ _ _ _ Hsome).
  destruct (findIndex _ items) as [[i|]|] eqn:Hfind; simpl; try by exists items.
  destruct (findIndex_found _ _ _ _ Hfind) as (old & Hold & _ & _).
  exists (delete i items). split; [apply records_in_insert|].
  rewrite delete_take_drop.
  rewrite <- (take_drop_middle _ _ _ Hold) in Hst, Hnd.
  apply stamped_app in Hst as [Hst1 [_ Hst2]%Forall_cons].
  rewrite ids_app, ids_cons in Hnd.
  split; [by apply stamped_app|].
  rewrite ids_app.
  apply NoDup_app in Hnd as (? & Hno & (_ & _ & ?)%NoDup_app).
  apply NoDup_app. split_and!; [done| |done].
  intros x Hx Hx'. apply (Hno x Hx). apply elem_of_app. by right.
Qed.

Lemma route_sound c m req fs items :
  records_in (path_of rt c) fs = Some items -> sound (key_of c) items ->
  exists items',
    records_in (path_of rt c) (route rt c m req fs).2 = Some items' /\
    sound (key_of c) items'.
Proof.
  intros Hfs Hs. destruct m; simpl.
  - destruct (post_api_eq rt c) as [? ->]. by eapply create_record_sound.
  - destruct (put_api_eq rt c) as [? ->]. by eapply replace_record_sound.
  - destruct (delete_api_eq rt c) as (? & ? & ->). by eapply delete_record_sound.
Qed.

Lemma run_sound c ops fs items :
  records_in (path_of rt c) fs = Some items -> sound (key_of c) items ->
  exists items',
    records_in (path_of rt c) (run rt c ops fs) = Some items' /\
    sound (key_of c) items'.
Proof.
  revert fs items. induction ops as [|[m req] ops IH]; intros fs items Hfs Hs; simpl.
  - by exists items.
  - destruct (route_sound c m req fs items Hfs Hs) as (items1 & H1 & Hs1).
    by eapply IH.
Qed.
End Preservation.

(** C3: after any sequence of create, replace-by-id and delete-by-id
    requests served one after the other on a collection that starts empty,
    the file is a collection whose identifying-field values ([id] for gold
    and animal, [crop_code] for crops) are pairwise distinct.  Every prefix
    of a sequence is a sequence, so this holds after every operation. *)
Theorem identifiers_stay_distinct (rt : JS.Runtime) (c : collection)
    (ops : list (method * request)) (fs : gmap string file) :
  empty_collection (path_of rt c) fs ->
  exists items,
    records_in (path_of rt c) (run rt c ops fs) = Some items /\
    NoDup (identifiers (key_of c) items).
Proof.
  intros Hfs.
  destruct (run_sound rt c ops fs [] Hfs) as (items & Hitems & Hst & Hnd).
  { split; [apply Forall_nil_2 | apply NoDup_nil_2]. }
  exists items. split; [done|].
  rewrite (identifiers_ids _ _ Hst).
  apply NoDup_fmap_2; [|done]. by intros ?? [=].
Qed.

Lemma identifiers_stay_distinct_witness :
  exists items,
    records_in (path_of demo gold) (run demo gold mixed_traffic ∅) = Some items /\
    NoDup (identifiers (key_of gold) items).
Proof. apply (identifiers_stay_distinct demo gold mixed_traffic ∅). reflexivity. Defined.

(** ** Creates count from one *)

Lemma fold_max_snoc (l : list Z) m x : fold_left Z.max (l ++ [x]) m = Z.max (fold_left Z.max l m) x.
Proof. by rewrite fold_left_app. Qed.

Section Creates.
Context (rt : JS.Runtime).

(** The identifier a create hands out is one more than the largest
    present, or one when there is none. *)
Lemma create_record_next path key failed req fs items fields :
  records_in path fs = Some items -> stamped key items ->
  body req = JObj fields ->
  let next := JNum (fold_left Z.max (ids key items) 0 + 1) in
  create_record rt path key failed req fs =
    ({| status := 201; payload := JObj (assign key next fields) |},
     <[path := Document (JArr (items ++ [JObj (assign key next fields)]))]> fs).
Proof.
  intros Hfs Hst Hbody.
  rewrite (create_record_eq rt _ _ _ _ _ _ (records_in_cases _ _ _ Hfs)).
  rewrite (reduce_larger rt _ _ _ Hst). simpl. by rewrite Hbody.
Qed.

Lemma serve_creates path key failed reqs : forall fs items,
  records_in path fs = Some items -> stamped key items ->
  Forall (fun req => is_object (body req) = true) reqs ->
  forall (n : nat) (req : request),
    reqs !! n = Some req ->
    exists r,
      (serve (create_record rt path key failed) reqs fs).1 !! n = Some r /\
      status r = 201 /\
      identifier key (payload r) =
        Some (JNum (fold_left Z.max (ids key items) 0 + Z.of_nat n + 1)).
Proof.
  induction reqs as [|req0 reqs IH]; intros fs items Hfs Hst Hobj n req Hn; [done|].
  apply Forall_cons in Hobj as [Hobj0 Hobj].
  destruct (body req0) as [| | | | |fields] eqn:Hbody; try done.
  simpl. rewrite (create_record_next _ _ _ _ _ _ _ Hfs Hst Hbody).
  set (m := fold_left Z.max (ids key items) 0).
  set (r0 := JObj (assign key (JNum (m + 1)) fields)).
  assert (Hid : identifier key r0 = Some (JNum (m + 1))) by apply identifier_set_object.
  destruct (serve _ reqs _) as [rs fs'] eqn:Hserve.
  destruct n as [|n]; simpl.
  - exists {| status := 201; payload := r0 |}. split_and!; [done..|].
    simpl. rewrite Hid. do 2 f_equal. lia.
  - simpl in Hn.
    destruct (IH (<[path := Document (JArr (items ++ [r0]))]> fs) (items ++ [r0])
                (records_in_insert _ _ _)) with (n := n) (req := req)
      as (r & Hr & H201 & Hr'); [| exact Hobj | exact Hn |].
    { apply stamped_app. split; [done|]. apply Forall_singleton. split; [done|]. eauto. }
    rewrite Hserve in Hr. exists r. split_and!; [done..|].
    rewrite Hr'. rewrite ids_app, (ids_of_match _ _ _ Hid), fold_max_snoc.
    pose proof (fold_max_ge (ids key items) 0). fold m. do 2 f_equal. lia.
Qed.
End Creates.

(** C1, amended: for every sequence of create requests whose bodies are
    JSON objects, served one after the other on a collection that starts
    empty, the nth answer (counting from one) has status 201 and carries n
    in its identifying field; by [create_record_next] that value is one more
    than the largest identifier present, or one when there is none. *)
Theorem creates_number_from_one (rt : JS.Runtime) (c : collection)
    (reqs : list request) (fs : gmap string file) :
  empty_collection (path_of rt c) fs ->
  Forall (fun req => is_object (body req) = true) reqs ->
  nth_create_gets_n rt c reqs fs.
Proof.
  intros Hfs Hobj n req Hn. destruct (post_api_eq rt c) as [failed ->].
  destruct (serve_creates rt _ (key_of c) failed reqs fs [] Hfs (Forall_nil_2 _) Hobj n req Hn)
    as (r & ? & ? & Hid).
  exists r. split_and!; [done..|]. rewrite Hid. simpl. do 2 f_equal.
Qed.

(** The scenario of the specification: [{amount:5}] then [{amount:7}] on
    an empty store; the second answer carries [id: 2]. *)
Lemma creates_number_from_one_witness :
  exists r,
    (serve (post_api demo gold) two_creates ∅).1 !! 1%nat = Some r /\
    status r = 201 /\
    identifier "id" (payload r) = Some (JNum 2).
Proof.
  apply (creates_number_from_one demo gold two_creates ∅) with (req := request_of "" (amount 7)).
  - reflexivity.
  - repeat constructor.
  - reflexivity.
Defined.

(** C1 as stated fails when a body is a JSON array: the array is stored
    and answered without the field, and the create after it is numbered
    one again. *)
Lemma creates_array_body_counterexample :
  ~ nth_create_gets_n demo gold [request_of "" (JArr []); request_of "" (amount 7)] ∅.
Proof.
  intros H. destruct (H 1%nat _ eq_refl) as (r & Hr & _ & Hid).
  vm_compute in Hr. injection Hr as <-. vm_compute in Hid. discriminate.
Qed.

(** ** Replace and delete by identifier *)

Lemma elem_of_identifiers key v items :
  v ∈ identifiers key items <-> exists item, item ∈ items /\ identifier key item = Some v.
Proof. unfold identifiers. apply list_elem_of_omap. Qed.

Lemma present_matches key n items :
  JNum n ∈ identifiers key items ->
  Exists (fun item => matches key (Some n) item = true) items.
Proof.
  intros (item & Hin & Hid)%elem_of_identifiers. apply Exists_exists.
  exists item. split; [done|]. apply matches_spec. eauto.
Qed.

Lemma absent_matches key id items :
  (forall n, id = Some n -> JNum n ∉ identifiers key items) ->
  Forall (fun item => matches key id item = false) items.
Proof.
  intros Habs. apply Forall_forall. intros item Hin.
  destruct (matches key id item) eqn:Hm; [|done].
  apply matches_spec in Hm as (n & Hn & Hid).
  destruct (Habs n Hn). apply elem_of_identifiers. eauto.
Qed.

(** C4, amended: for every collection and every request body that is a
    JSON object, replace-by-id on a present id answers 200 with the body
    re-stamped: its identifying field is the id of the path, whatever the
    body held there, and that record is stored in place of the first record
    carrying the id. *)
Theorem replace_restamps_object (rt : JS.Runtime) (c : collection)
    (req : request) (fs : gmap string file) :
  is_object (body req) = true ->
  replace_restamps rt c req fs.
Proof.
  intros Hobj items n Hfs Hrec Hid Hin.
  destruct (put_api_eq rt c) as [failed ->].
  rewrite (replace_record_eq _ _ _ _ _ _ _ _ Hfs), Hid.
  destruct (findIndex_present _ _ _ Hrec (present_matches _ _ _ Hin)) as [i Hi].
  rewrite Hi. destruct (findIndex_found _ _ _ _ Hi) as (old & Hold & Hm & _).
  apply matches_spec in Hm as (n' & [= <-] & Hidold).
  destruct (body req) as [| | | | |fields]; try done. simpl.
  exists (JObj (assign (key_of c) (JNum n) fields)), i, old.
  split_and!; try done. apply identifier_set_object.
Qed.

Lemma replace_restamps_object_witness :
  exists (r : json) (i : nat) (old : json),
    put_api demo gold (request_of "1" (JObj [("id"%string, JNum 9)])) one_gold =
      ({| status := 200; payload := r |},
       <[path_of demo gold := Document (JArr (<[i := r]> [amount_id 5 1]))]> one_gold) /\
    JS.set "id" (JNum 1) (JObj [("id"%string, JNum 9)]) = Some r /\
    identifier "id" r = Some (JNum 1) /\
    [amount_id 5 1] !! i = Some old /\
    identifier "id" old = Some (JNum 1).
Proof.
  apply (replace_restamps_object demo gold
           (request_of "1" (JObj [("id"%string, JNum 9)])) one_gold eq_refl
           [amount_id 5 1] 1).
  - reflexivity.
  - repeat constructor; done.
  - reflexivity.
  - apply elem_of_identifiers. eexists. split; [apply list_elem_of_here | reflexivity].
Defined.

(** C4 as stated fails for a body that is a JSON array: the answer does not
    carry the identifying field. *)
Lemma replace_array_body_counterexample :
  ~ replace_restamps demo gold (request_of "1" (JArr [JNum 9])) one_gold.
Proof.
  intros H.
  destruct (H [amount_id 5 1] 1) as (r & i & old & Hput & _ & Hid & _).
  - reflexivity.
  - repeat constructor; done.
  - reflexivity.
  - apply elem_of_identifiers. eexists. split; [apply list_elem_of_here|reflexivity].
  - vm_compute in Hput. injection Hput as <- _. vm_compute in Hid. discriminate.
Qed.

(** C5: on a collection none of whose records carries the id of the path
    in its identifying field, replace-by-id and delete-by-id answer 404
    with the collection's not-found message and leave the file system as it
    was. *)
Theorem absent_id_not_found (rt : JS.Runtime) (c : collection)
    (req : request) (fs : gmap string file) (items : list json) :
  fs !! path_of rt c = Some (Document (JArr items)) ->
  Forall record items ->
  (forall n, JS.parseInt rt (param req) = Some n ->
             JNum n ∉ identifiers (key_of c) items) ->
  put_api rt c req fs = ({| status := 404; payload := error_body (missing_of c) |}, fs) /\
  delete_api rt c req fs = ({| status := 404; payload := error_body (missing_of c) |}, fs).
Proof.
  intros Hfs Hrec Habs.
  pose proof (findIndex_absent _ _ _ Hrec (absent_matches _ _ _ Habs)) as Hfind.
  destruct (put_api_eq rt c) as [failed ->].
  destruct (delete_api_eq rt c) as (deleted & failed' & ->).
  rewrite (replace_record_eq _ _ _ _ _ _ _ _ Hfs), (delete_record_eq _ _ _ _ _ _ _ _ _ Hfs).
  by rewrite Hfind.
Qed.

Lemma absent_id_not_found_witness :
  put_api demo gold (request_of "7" (amount 3)) two_gold =
    ({| status := 404; payload := error_body "Record not found" |}, two_gold) /\
  delete_api demo gold (request_of "7" (amount 3)) two_gold =
    ({| status := 404; payload := error_body "Record not found" |}, two_gold).
Proof.
  apply (absent_id_not_found demo gold (request_of "7" (amount 3)) two_gold
           [amount_id 5 1; amount_id 7 2]).
  - reflexivity.
  - repeat constructor; done.
  - intros n [= <-] Hin. apply elem_of_identifiers in Hin as (item & Hitem & Hid).
    repeat (apply elem_of_cons in Hitem as [-> | Hitem]); try discriminate.
    by apply elem_of_nil in Hitem.
Defined.

(** ** Whole-document overwrite *)

Lemma overwrite_document_eq path req fs :
  overwrite_document path req fs =
    ({| status := 201; payload := message_body "Data overwritten successfully." |},
     <[path := Document (body req)]> fs).
Proof.
  unfold overwrite_document, try_catch, mbind, io_bind, writeJson, send, mret, io_ret.
  by rewrite stored_document.
Qed.





(** ** Listing profiles *)

Lemma ilike_same_case column p q r :
  Case.fold p = Case.fold q ->
  Store.ilike column p r = Store.ilike column q r.
Proof. intros H. unfold Store.ilike. by rewrite H. Qed.

Lemma get_all_of_eq rt l : get_all_of rt l = Profiles.get_all rt (Case.fold (tag_of l)).
Proof. by destruct l. Qed.

(** C7, amended: for a request whose [loantype] query value is absent or
    a single text, when the value equals the endpoint's own tag up to case
    (its [toLowerCase()] is [kcc] for [/get-all-users], [kccah] for
    [/get-all-usersAH]) the rows answered are exactly those whose loan-type
    column matches the tag up to case; when no value or any other text is
    supplied, all rows are answered; in both cases the answer reports the
    number of rows next to them. *)
Theorem get_all_filters_own_tag (rt : JS.Runtime) (l : loan) (req : request)
    (t : list Store.row) :
  loantype_query req <> QNested ->
  get_all_of rt l req t =
    listing match loantype_query req with
            | QText s =>
                if String.eqb (JS.toLowerCase rt s) (Case.fold (tag_of l))
                then filter (Store.ilike "loantype" (tag_of l)) t
                else t
            | _ => t
            end.
Proof.
  intros Hq. rewrite get_all_of_eq. unfold Profiles.get_all.
  destruct (loantype_query req) as [|s|]; [done| |done].
  destruct (String.eqb (JS.toLowerCase rt s) _) eqn:Hs.
  - apply String.eqb_eq in Hs.
    assert (String.eqb s "" = false) as ->.
    { destruct s; [|done]. rewrite (JS.toLowerCase_plain rt "") in Hs by done.
      by destruct l. }
    simpl. unfold listing. do 2 f_equal.
    assert (filter (Store.ilike "loantype" (Case.fold (tag_of l))) t
            = filter (Store.ilike "loantype" (tag_of l)) t) as ->; [|done].
    apply list_filter_iff. intros r.
    rewrite (ilike_same_case "loantype" (Case.fold (tag_of l)) (tag_of l)); [done|].
    by destruct l.
  - by rewrite andb_false_r.
Qed.

Lemma get_all_filters_own_tag_witness :
  get_all_of demo KCC (query_of (QText "Kcc")) two_profiles =
    listing [profile "1" (JStr "KCC")].
Proof.
  apply (get_all_filters_own_tag demo KCC (query_of (QText "Kcc")) two_profiles). discriminate.
Defined.

(** C7 as stated fails when the supplied value is not the endpoint's own
    tag: every row comes back. *)
Lemma get_all_other_value_counterexample :
  ~ filters_by_supplied_value demo KCC (query_of (QText "kccah")) two_profiles.
Proof. unfold filters_by_supplied_value. vm_compute. discriminate. Qed.

(** ** Profiles scoped to a loan type *)

Lemma user_data_of_eq l :
  user_data_of l = Profiles.user_data (tag_of l) (rejection_of l).
Proof. by destruct l. Qed.

Lemma strict_ne_str_other x s : x <> Some (JStr s) -> JS.strict_ne_str x s = true.
Proof.
  destruct x as [[]|]; simpl; try done.
  intros H. apply negb_true_iff, String.eqb_neq. congruence.
Qed.

(** C8, amended: the scoped lookups answer 404 when no row has the
    identifier, and 400 with the endpoint's rejection when the one row
    found has a non-empty (truthy) loan type other than the endpoint's tag
    ([KCC], resp. [KCCAH]). *)
Theorem rejects_other_nonempty_loan_type (l : loan) (req : request) (t : list Store.row) :
  (filter (Store.eq Profiles.u_en (param req)) t = [] ->
   user_data_of l req t =
     {| status := 404; payload := message_body "பயனர் கிடைக்கவில்லை" |}) /\
  (forall r,
     filter (Store.eq Profiles.u_en (param req)) t = [r] ->
     JS.truthy (own "loantype" r) = true ->
     own "loantype" r <> Some (JStr (tag_of l)) ->
     user_data_of l req t = {| status := 400; payload := message_body (rejection_of l) |}).
Proof.
  rewrite user_data_of_eq. unfold Profiles.user_data. split.
  - by intros ->.
  - intros r -> Ht Hne. simpl. by rewrite Ht, (strict_ne_str_other _ _ Hne).
Qed.

Lemma rejects_other_nonempty_loan_type_witness :
  user_data_of KCC (request_of "42" JNull) [] =
    {| status := 404; payload := message_body "பயனர் கிடைக்கவில்லை" |} /\
  user_data_of KCCAH (request_of "42" JNull) [profile "42" (JStr "KCC")] =
    {| status := 400; payload := message_body "இந்த உ_எண் NO IN KCCAH " |}.
Proof.
  split.
  - apply (proj1 (rejects_other_nonempty_loan_type KCC (request_of "42" JNull) [])).
    reflexivity.
  - apply (proj2 (rejects_other_nonempty_loan_type KCCAH (request_of "42" JNull)
                    [profile "42" (JStr "KCC")]) (profile "42" (JStr "KCC")));
      [reflexivity | reflexivity | discriminate].
Defined.

(** C8 as stated fails for a row whose loan type is [null]: the row is
    returned. *)
Lemma null_loan_type_counterexample :
  ~ rejects_other_loan_type KCC (request_of "42" JNull) [profile "42" JNull].
Proof.
  intros [_ H]. specialize (H (profile "42" JNull) eq_refl).
  vm_compute in H. by specialize (H ltac:(discriminate)).
Qed.

(** C10: when the one row found has a [null], empty or absent loan type,
    both scoped lookups answer 200 with the row: the check of the loan type
    is skipped for a falsy field. *)
Theorem falsy_loan_type_is_returned (l : loan) (req : request) (t : list Store.row)
    (r : Store.row) :
  filter (Store.eq Profiles.u_en (param req)) t = [r] ->
  own "loantype" r = Some JNull \/ own "loantype" r = Some (JStr "") \/
    own "loantype" r = None ->
  user_data_of l req t = {| status := 200; payload := JObj r |}.
Proof.
  intros Hrows Hfalsy. rewrite user_data_of_eq. unfold Profiles.user_data.
  rewrite Hrows. simpl. by destruct Hfalsy as [-> | [-> | ->]].
Qed.

Lemma falsy_loan_type_is_returned_witness :
  user_data_of KCC (request_of "42" JNull) [profile "42" JNull] =
    {| status := 200; payload := JObj (profile "42" JNull) |} /\
  user_data_of KCCAH (request_of "42" JNull) [profile "42" (JStr "")] =
    {| status := 200; payload := JObj (profile "42" (JStr "")) |}.
Proof.
  split.
  - apply (falsy_loan_type_is_returned KCC (request_of "42" JNull) [profile "42" JNull]);
      [reflexivity | by left].
  - apply (falsy_loan_type_is_returned KCCAH (request_of "42" JNull)
             [profile "42" (JStr "")]); [reflexivity | right; by left].
Defined.

(** ** Submitting a profile *)



(** ** Initialisation at start-up *)

Lemma init_file_eq p d fs :
  init_file (p, d) fs =
    (Some tt, match fs !! p with Some _ => fs | None => <[p := Document d]> fs end).
Proof.
  unfold init_file, mbind, io_bind, pathExists, writeJson. simpl.
  destruct (fs !! p) eqn:E.
  - by rewrite bool_decide_eq_true_2 by eauto.
  - by rewrite bool_decide_eq_false_2, stored_document by (by intros [? ?]).
Qed.

(** Initialisation does not touch a file that is there. *)
Lemma for_of_init_keeps files : forall fs q f,
  fs !! q = Some f -> (for_of files init_file fs).2 !! q = Some f.
Proof.
  induction files as [|[p d] files IH]; intros fs q f Hq; [done|].
  simpl. unfold mbind, io_bind. rewrite init_file_eq. apply IH.
  destruct (fs !! p) eqn:E; [done|].
  rewrite lookup_insert_ne; [done|]. intros ->. congruence.
Qed.

(** It creates a listed file that is not there. *)
Lemma for_of_init_creates files : forall fs q d,
  (q, d) ∈ files -> NoDup files.*1 -> fs !! q = None ->
  (for_of files init_file fs).2 !! q = Some (Document d).
Proof.
  induction files as [|[p d'] files IH]; intros fs q d Hin Hnd Hq;
    [by apply elem_of_nil in Hin|].
  simpl. unfold mbind, io_bind. rewrite init_file_eq.
  apply NoDup_cons in Hnd as [Hp Hnd].
  apply elem_of_cons in Hin as [[= <- <-] | Hin].
  - rewrite Hq. apply for_of_init_keeps. apply lookup_insert_eq.
  - assert (p <> q).
    { intros ->. apply Hp. apply list_elem_of_fmap. by exists (q, d). }
    apply IH; [done..|].
    destruct (fs !! p); [done|]. by rewrite lookup_insert_ne.
Qed.

(** It leaves every path that is not listed as it was. *)
Lemma for_of_init_other files : forall fs q,
  q ∉ files.*1 -> (for_of files init_file fs).2 !! q = fs !! q.
Proof.
  induction files as [|[p d] files IH]; intros fs q Hq; [done|].
  simpl. unfold mbind, io_bind. rewrite init_file_eq.
  apply not_elem_of_cons in Hq as [Hne Hq]. rewrite IH by done.
  destruct (fs !! p); [done|]. by rewrite lookup_insert_ne.
Qed.

Lemma append_cancel (d a b : string) : String.append d a = String.append d b -> a = b.
Proof. induction d as [|ch d IH]; simpl; [done|]. intros [= H]. by apply IH. Qed.

(** X16: off Vercel no file the handlers read is among the files
    initialised: each of the five is after initialisation what it was
    before, and what is missing before is missing after. *)
Lemma initializeFiles_local (rt : JS.Runtime) (fs : gmap string file) :
  JS.isVercel rt = false ->
  (forall c, initializeFiles rt fs !! path_of rt c = fs !! path_of rt c) /\
  (forall d, initializeFiles rt fs !! dataset_path rt d = fs !! dataset_path rt d).
Proof.
  intros Hv.
  assert (Hother : forall name : string,
            name ∈ ["gold.json"; "animal.json"; "crops.json"; "kccdata.json";
                    "kccahdata.json"]%string ->
            initializeFiles rt fs !! path_join [JS.dirname rt; name] =
              fs !! path_join [JS.dirname rt; name]).
  { intros name Hname.
    set (dir := JS.dirname rt) in *.
    assert (initializeFiles rt fs =
              (for_of [ (path_join [dir; "components"; "data"; "gold.json"]%string, JArr []);
                        (path_join [dir; "components"; "data"; "animal.json"]%string, JArr []);
                        (path_join [dir; "components"; "data"; "crops.json"]%string, JArr []);
                        (path_join [dir; "components"; "data"; "kccdata.json"]%string, JArr []);
                        (path_join [dir; "components"; "data"; "kccahdata.json"]%string, JArr []) ]
                 init_file fs).2) as ->.
    { unfold initializeFiles. rewrite Hv.
      unfold mbind, io_bind, pathExists, mkdirp, mret, io_ret.
      by destruct (bool_decide _). }
    rewrite for_of_init_other; [done|].
    unfold path_join; simpl;
      intros Hin; repeat (apply elem_of_cons in Hin as [Heq | Hin]);
      [ apply append_cancel in Heq .. | by apply elem_of_nil in Hin ];
      repeat (apply elem_of_cons in Hname as [-> | Hname]);
      try discriminate; by apply elem_of_nil in Hname. }
  split.
  - intros c. unfold path_of, dataFilePath, animalFilePath, cropsFilePath, baseDir.
    rewrite Hv. destruct c; apply Hother; set_solver.
  - intros d. unfold dataset_path, kccdataFilePath, kccahdataFilePath, baseDir.
    rewrite Hv. destruct d; apply Hother; set_solver.
Qed.

(** X15: on Vercel the files the handlers read are the files initialised:
    a collection or dataset that had no file lists as the empty array with
    200 after initialisation. *)
Lemma initializeFiles_vercel (rt : JS.Runtime) (fs : gmap string file) (req : request) :
  JS.isVercel rt = true ->
  (forall c, fs !! path_of rt c = None ->
     get_api rt c req (initializeFiles rt fs) =
       ({| status := 200; payload := JArr [] |}, initializeFiles rt fs)) /\
  (forall d, fs !! dataset_path rt d = None ->
     get_dataset rt d req (initializeFiles rt fs) =
       ({| status := 200; payload := JArr [] |}, initializeFiles rt fs)).
Proof.
  intros Hv.
  assert (Hcreated : forall q, q ∈ [dataFilePath rt; animalFilePath rt; cropsFilePath rt;
                                    kccdataFilePath rt; kccahdataFilePath rt] ->
            fs !! q = None -> initializeFiles rt fs !! q = Some (Document (JArr []))).
  { intros q Hq Hnone. unfold initializeFiles. rewrite Hv.
    apply for_of_init_creates; [| |done].
    - apply (list_elem_of_fmap_2 (fun q => (q, JArr [])) _ _ Hq).
    - unfold dataFilePath, animalFilePath, cropsFilePath, kccdataFilePath,
        kccahdataFilePath, baseDir. rewrite Hv.
      vm_compute. apply NoDup_ListNoDup.
      repeat (constructor; [intros Hin; repeat destruct Hin as [[=] | Hin]; done|]).
      constructor. }
  split.
  - intros c Hnone.
    assert (exists failed, get_api rt c = list_records (path_of rt c) failed) as [failed ->]
      by (destruct c; eexists; reflexivity).
    rewrite list_records_eq, Hcreated; [done| |done].
    destruct c; set_solver.
  - intros d Hnone.
    assert (exists failed, get_dataset rt d = list_records (dataset_path rt d) failed)
      as [failed ->] by (destruct d; eexists; reflexivity).
    rewrite list_records_eq, Hcreated; [done| |done].
    destruct d; set_solver.
Qed.

(** C2, on a local deployment with no collection file on disk: the files
    initialised are those under [components/data], not the files the
    handlers read, and every listing after initialisation answers 500
    rather than the empty array. *)
Theorem local_initialization_misses_the_collections :
  (forall c, (get_api local c (request_of "" (JObj [])) (initializeFiles local ∅)).1
             = {| status := 500;
                  payload := error_body match c with
                                        | gold => "Failed to read gold data"
                                        | animal => "Failed to read animal data"
                                        | crops => "Failed to read crop data"
                                        end |}) /\
  (forall d, (get_dataset local d (request_of "" (JObj [])) (initializeFiles local ∅)).1
             = {| status := 500; payload := error_body "Error reading data" |}).
Proof. split; intros []; vm_compute; reflexivity. Qed.

(** * Further properties of the handlers *)

(** ** What a request writes *)

Section Writes.
Context (rt : JS.Runtime).

Lemma create_record_unreadable path key failed req fs :
  records_in path fs = None ->
  create_record rt path key failed req fs =
    ({| status := 500; payload := error_body failed |}, fs).
Proof.
  intros Hfs. unfold records_in in Hfs.
  unfold create_record, try_catch, mbind, io_bind, pathExists, readJson, lift. simpl.
  destruct (fs !! path) as [f|] eqn:E; [|done].
  rewrite bool_decide_eq_true_2 by eauto. simpl. rewrite E.
  destruct f as [|[]]; try done.
Qed.

Lemma replace_record_unreadable_eq path key missing failed req fs :
  (forall items, fs !! path <> Some (Document (JArr items))) ->
  replace_record rt path key missing failed req fs =
    ({| status := 500; payload := error_body failed |}, fs).
Proof.
  intros Hfs.
  unfold replace_record, try_catch, mbind, io_bind, readJson, lift. simpl.
  destruct (fs !! path) as [[|[]]|] eqn:E; try reflexivity.
  by destruct (Hfs items).
Qed.

Lemma delete_record_unreadable_eq path key missing deleted failed req fs :
  (forall items, fs !! path <> Some (Document (JArr items))) ->
  delete_record rt path key missing deleted failed req fs =
    ({| status := 500; payload := error_body failed |}, fs).
Proof.
  intros Hfs.
  unfold delete_record, try_catch, mbind, io_bind, readJson, lift. simpl.
  destruct (fs !! path) as [[|[]]|] eqn:E; try reflexivity.
  by destruct (Hfs items).
Qed.

Lemma array_or_not path (fs : gmap string file) :
  (exists items, fs !! path = Some (Document (JArr items))) \/
  (forall items, fs !! path <> Some (Document (JArr items))).
Proof. destruct (fs !! path) as [[|[]]|]; eauto; right; congruence. Qed.

(** The shape of every create: appended and 201, or 500 and nothing. *)
Lemma post_api_cases c req fs :
  (exists items r,
     records_in (path_of rt c) fs = Some items /\
     post_api rt c req fs =
       ({| status := 201; payload := r |},
        <[path_of rt c := Document (JArr (items ++ [r]))]> fs)) \/
  (exists failed,
     post_api rt c req fs = ({| status := 500; payload := error_body failed |}, fs)).
Proof.
  destruct (post_api_eq rt c) as [failed ->].
  destruct (records_in (path_of rt c) fs) as [items|] eqn:Hfs.
  - rewrite (create_record_eq rt _ _ _ _ _ _ (records_in_cases _ _ _ Hfs)).
    destruct (_ ≫= _) as [r|]; [left|right]; eauto.
  - right. exists failed. by apply create_record_unreadable.
Qed.

(** The shape of every replace. *)
Lemma put_api_cases c req fs :
  (exists items i old r,
     fs !! path_of rt c = Some (Document (JArr items)) /\
     items !! i = Some old /\
     matches (key_of c) (JS.parseInt rt (param req)) old = true /\
     JS.set (key_of c) (number (JS.parseInt rt (param req))) (body req) = Some r /\
     put_api rt c req fs =
       ({| status := 200; payload := r |},
        <[path_of rt c := Document (JArr (<[i := r]> items))]> fs)) \/
  put_api rt c req fs =
    ({| status := 404; payload := error_body (missing_of c) |}, fs) \/
  (exists failed,
     put_api rt c req fs = ({| status := 500; payload := error_body failed |}, fs)).
Proof.
  destruct (put_api_eq rt c) as [failed ->].
  destruct (array_or_not (path_of rt c) fs) as [[items Hfs] | Hfs].
  - rewrite (replace_record_eq _ _ _ _ _ _ _ _ Hfs).
    destruct (findIndex _ items) as [[i|]|] eqn:Hfind; eauto.
    destruct (JS.set _ _ (body req)) as [r|] eqn:Hset; eauto.
    destruct (findIndex_found _ _ _ _ Hfind) as (old & Hold & Hm & _).
    left. by exists items, i, old, r.
  - right; right. exists failed. by apply replace_record_unreadable_eq.
Qed.

(** The shape of every delete. *)
Lemma delete_api_cases c req fs :
  (exists items i old deleted,
     fs !! path_of rt c = Some (Document (JArr items)) /\
     items !! i = Some old /\
     matches (key_of c) (JS.parseInt rt (param req)) old = true /\
     Forall (fun item => matches (key_of c) (JS.parseInt rt (param req)) item = false)
       (take i items) /\
     delete_api rt c req fs =
       ({| status := 200; payload := message_body deleted |},
        <[path_of rt c := Document (JArr (delete i items))]> fs)) \/
  delete_api rt c req fs =
    ({| status := 404; payload := error_body (missing_of c) |}, fs) \/
  (exists failed,
     delete_api rt c req fs = ({| status := 500; payload := error_body failed |}, fs)).
Proof.
  destruct (delete_api_eq rt c) as (deleted & failed & ->).
  destruct (array_or_not (path_of rt c) fs) as [[items Hfs] | Hfs].
  - rewrite (delete_record_eq _ _ _ _ _ _ _ _ _ Hfs).
    destruct (findIndex _ items) as [[i|]|] eqn:Hfind; eauto.
    destruct (findIndex_found _ _ _ _ Hfind) as (old & Hold & Hm & Hbefore).
    left. by exists items, i, old, deleted.
  - right; right. exists failed. by apply delete_record_unreadable_eq.
Qed.
End Writes.

(** X1: a create, replace or delete that is not answered 200 or 201 leaves
    the file system exactly as it was. *)
Theorem failure_writes_nothing (rt : JS.Runtime) (c : collection) (m : method)
    (req : request) (fs : gmap string file) :
  succeeded (route rt c m req fs).1 = false ->
  (route rt c m req fs).2 = fs.
Proof.
  destruct m; simpl.
  - destruct (post_api_cases rt c req fs) as [(items & r & _ & ->) | [failed ->]]; done.
  - destruct (put_api_cases rt c req fs)
      as [(items & i & old & r & _ & _ & _ & _ & ->) | [-> | [failed ->]]]; done.
  - destruct (delete_api_cases rt c req fs)
      as [(items & i & old & d & _ & _ & _ & _ & ->) | [-> | [failed ->]]]; done.
Qed.

Lemma failure_writes_nothing_witness :
  (route demo gold PUT (request_of "7" (amount 3)) one_gold).2 = one_gold.
Proof. apply (failure_writes_nothing demo gold PUT). reflexivity. Defined.

(** X2: a create answered 201 has appended exactly the record it answers
    with to the records that were there, in their order; the listing that
    follows shows them so. *)
Theorem create_appends_its_answer (rt : JS.Runtime) (c : collection)
    (req req' : request) (fs : gmap string file) :
  status (post_api rt c req fs).1 = 201 ->
  exists items,
    records_in (path_of rt c) fs = Some items /\
    get_api rt c req' (post_api rt c req fs).2 =
      ({| status := 200; payload := JArr (items ++ [payload (post_api rt c req fs).1]) |},
       (post_api rt c req fs).2).
Proof.
  intros H201.
  destruct (post_api_cases rt c req fs) as [(items & r & Hfs & Hpost) | [failed Hpost]];
    rewrite Hpost in *; [|done].
  exists items. split; [done|]. simpl.
  assert (exists failed, get_api rt c = list_records (path_of rt c) failed) as [failed ->]
    by (destruct c; eexists; reflexivity).
  by rewrite list_records_eq, lookup_insert_eq.
Qed.

Lemma create_appends_its_answer_witness :
  exists items,
    records_in (path_of demo gold) one_gold = Some items /\
    get_api demo gold (request_of "" JNull)
      (post_api demo gold (request_of "" (amount 7)) one_gold).2 =
      ({| status := 200;
          payload := JArr (items ++
                       [payload (post_api demo gold (request_of "" (amount 7)) one_gold).1]) |},
       (post_api demo gold (request_of "" (amount 7)) one_gold).2).
Proof. apply (create_appends_its_answer demo gold). reflexivity. Defined.

(** X3: a replace answered 200 has put the record it answers with in the
    place of one record that carried the id of the path; the collection
    keeps its length and every other position its record. *)
Theorem replace_changes_one_position (rt : JS.Runtime) (c : collection)
    (req : request) (fs : gmap string file) :
  status (put_api rt c req fs).1 = 200 ->
  exists items items' i old,
    records_in (path_of rt c) fs = Some items /\
    records_in (path_of rt c) (put_api rt c req fs).2 = Some items' /\
    items !! i = Some old /\
    matches (key_of c) (JS.parseInt rt (param req)) old = true /\
    items' !! i = Some (payload (put_api rt c req fs).1) /\
    length items' = length items /\
    forall j, j <> i -> items' !! j = items !! j.
Proof.
  intros H200.
  destruct (put_api_cases rt c req fs)
    as [(items & i & old & r & Hfs & Hold & Hm & _ & Hput) | [Hput | [failed Hput]]];
    rewrite Hput in *; try done.
  exists items, (<[i := r]> items), i, old. simpl.
  split_and!; try done.
  - unfold records_in. by rewrite Hfs.
  - apply records_in_insert.
  - apply list_lookup_insert_eq. by eapply lookup_lt_Some.
  - apply length_insert.
  - intros j Hj. by apply list_lookup_insert_ne.
Qed.

Lemma replace_changes_one_position_witness :
  exists items items' i old,
    records_in (path_of demo gold) one_gold = Some items /\
    records_in (path_of demo gold)
      (put_api demo gold (request_of "1" (amount 9)) one_gold).2 = Some items' /\
    items !! i = Some old /\
    matches "id" (ParseInt.parseInt "1") old = true /\
    items' !! i = Some (payload (put_api demo gold (request_of "1" (amount 9)) one_gold).1) /\
    length items' = length items /\
    forall j, j <> i -> items' !! j = items !! j.
Proof.
  apply (replace_changes_one_position demo gold (request_of "1" (amount 9)) one_gold).
  reflexivity.
Defined.

(** X4: a delete answered 200 has removed one record, the first that
    carried the id of the path; the records before it and after it stay,
    in their order. *)
Theorem delete_removes_first_match (rt : JS.Runtime) (c : collection)
    (req : request) (fs : gmap string file) :
  status (delete_api rt c req fs).1 = 200 ->
  exists before old after,
    records_in (path_of rt c) fs = Some (before ++ old :: after) /\
    records_in (path_of rt c) (delete_api rt c req fs).2 = Some (before ++ after) /\
    matches (key_of c) (JS.parseInt rt (param req)) old = true /\
    Forall (fun item => matches (key_of c) (JS.parseInt rt (param req)) item = false)
      before.
Proof.
  intros H200.
  destruct (delete_api_cases rt c req fs)
    as [(items & i & old & d & Hfs & Hold & Hm & Hbefore & Hdel) | [Hdel | [failed Hdel]]];
    rewrite Hdel in *; try done.
  exists (take i items), old, (drop (S i) items). simpl.
  split_and!; try done.
  - unfold records_in. by rewrite Hfs, (take_drop_middle _ _ _ Hold).
  - by rewrite records_in_insert, delete_take_drop.
Qed.

Lemma delete_removes_first_match_witness :
  exists before old after,
    records_in (path_of demo gold) one_gold = Some (before ++ old :: after) /\
    records_in (path_of demo gold)
      (delete_api demo gold (request_of "1" JNull) one_gold).2 = Some (before ++ after) /\
    matches "id" (ParseInt.parseInt "1") old = true /\
    Forall (fun item => matches "id" (ParseInt.parseInt "1") item = false) before.
Proof.
  apply (delete_removes_first_match demo gold (request_of "1" JNull) one_gold).
  reflexivity.
Defined.

(** ** Each handler has its own file *)

(** Whatever the deployment, the five files the handlers read are five
    different paths. *)
Lemma handler_paths_distinct (rt : JS.Runtime) : NoDup (handler_paths rt).
Proof.
  unfold handler_paths, dataFilePath, animalFilePath, cropsFilePath, kccdataFilePath,
    kccahdataFilePath, path_join. simpl.
  apply NoDup_ListNoDup.
  repeat (constructor;
          [intros Hin; repeat destruct Hin as [Heq%append_cancel | Hin]; done|]).
  constructor.
Qed.

Ltac listed := repeat first [apply list_elem_of_here | apply list_elem_of_further].

(** Two of the five paths cannot be equal. *)
Ltac clash H Heq :=
  solve [ apply H; rewrite Heq; listed | apply H; rewrite <- Heq; listed ].

Lemma route_writes_own_file rt c m req fs :
  (route rt c m req fs).2 = fs \/
  exists f, (route rt c m req fs).2 = <[path_of rt c := f]> fs.
Proof.
  destruct m; simpl.
  - destruct (post_api_cases rt c req fs) as [(items & r & _ & ->) | [failed ->]]; eauto.
  - destruct (put_api_cases rt c req fs)
      as [(items & i & old & r & _ & _ & _ & _ & ->) | [-> | [failed ->]]]; eauto.
  - destruct (delete_api_cases rt c req fs)
      as [(items & i & old & d & _ & _ & _ & _ & ->) | [-> | [failed ->]]]; eauto.
Qed.

Lemma run_other_path rt c ops : forall fs p,
  p <> path_of rt c -> run rt c ops fs !! p = fs !! p.
Proof.
  induction ops as [|[m req] ops IH]; intros fs p Hp; [done|]. simpl.
  rewrite IH by done.
  destruct (route_writes_own_file rt c m req fs) as [-> | [f ->]]; [done|].
  by rewrite lookup_insert_ne.
Qed.

Lemma path_of_inj rt c c' : path_of rt c = path_of rt c' -> c = c'.
Proof.
  pose proof (handler_paths_distinct rt) as Hnd. unfold handler_paths in Hnd.
  apply NoDup_cons in Hnd as [H1 Hnd]. apply NoDup_cons in Hnd as [H2 Hnd].
  destruct c, c'; simpl; intros Heq; try done; exfalso;
    first [clash H1 Heq | clash H2 Heq].
Qed.

Lemma dataset_path_not_collection rt d c : dataset_path rt d <> path_of rt c.
Proof.
  pose proof (handler_paths_distinct rt) as Hnd. unfold handler_paths in Hnd.
  apply NoDup_cons in Hnd as [H1 Hnd]. apply NoDup_cons in Hnd as [H2 Hnd].
  apply NoDup_cons in Hnd as [H3 Hnd].
  destruct d, c; simpl; intros Heq;
    first [clash H1 Heq | clash H2 Heq | clash H3 Heq].
Qed.

Lemma get_api_eq rt c :
  exists failed, get_api rt c = list_records (path_of rt c) failed.
Proof. destruct c; eexists; reflexivity. Qed.

Lemma get_dataset_eq rt d :
  exists failed, get_dataset rt d = list_records (dataset_path rt d) failed.
Proof. destruct d; eexists; reflexivity. Qed.

(** A listing depends on its own file only. *)
Lemma list_records_same path failed req (fs fs' : gmap string file) :
  fs' !! path = fs !! path ->
  (list_records path failed req fs').1 = (list_records path failed req fs).1.
Proof. intros H. rewrite !list_records_eq, H. by destruct (fs !! path) as [[]|]. Qed.

(** X5: no sequence of creates, replaces and deletes on one collection
    changes what the listing of another collection, or of a loan dataset,
    answers. *)
Theorem other_listings_unchanged (rt : JS.Runtime) (c : collection)
    (ops : list (method * request)) (req : request) (fs : gmap string file) :
  (forall c', c' <> c ->
     (get_api rt c' req (run rt c ops fs)).1 = (get_api rt c' req fs).1) /\
  (forall d,
     (get_dataset rt d req (run rt c ops fs)).1 = (get_dataset rt d req fs).1).
Proof.
  split.
  - intros c' Hc. destruct (get_api_eq rt c') as [failed ->].
    apply list_records_same, run_other_path. by intros ?%path_of_inj.
  - intros d. destruct (get_dataset_eq rt d) as [failed ->].
    apply list_records_same, run_other_path, dataset_path_not_collection.
Qed.

Lemma other_listings_unchanged_witness :
  (get_api demo animal (request_of "" JNull) (run demo gold mixed_traffic no_animal)).1
    = (get_api demo animal (request_of "" JNull) no_animal).1.
Proof.
  apply (proj1 (other_listings_unchanged demo gold mixed_traffic
                  (request_of "" JNull) no_animal)).
  discriminate.
Defined.

(** X6: an overwrite of one loan dataset changes no other file: the
    listings of the three collections and of the other dataset answer as
    before. *)
Theorem overwrite_touches_one_file (rt : JS.Runtime) (d : dataset)
    (req req' : request) (fs : gmap string file) :
  (forall c,
     (get_api rt c req' (post_dataset rt d req fs).2).1 = (get_api rt c req' fs).1) /\
  (forall d', d' <> d ->
     (get_dataset rt d' req' (post_dataset rt d req fs).2).1
       = (get_dataset rt d' req' fs).1).
Proof.
  assert (post_dataset rt d = overwrite_document (dataset_path rt d)) as -> by by destruct d.
  rewrite overwrite_document_eq. simpl. split.
  - intros c. destruct (get_api_eq rt c) as [failed ->].
    apply list_records_same, lookup_insert_ne, dataset_path_not_collection.
  - intros d' Hd. destruct (get_dataset_eq rt d') as [failed ->].
    apply list_records_same, lookup_insert_ne.
    pose proof (handler_paths_distinct rt) as Hnd. unfold handler_paths in Hnd.
    do 3 apply NoDup_cons in Hnd as [_ Hnd]. apply NoDup_cons in Hnd as [H4 _].
    destruct d, d'; simpl; try done; intros Heq; clash H4 Heq.
Qed.

Lemma overwrite_touches_one_file_witness :
  (get_dataset demo kccahdata (request_of "" JNull)
     (post_dataset demo kccdata (request_of "" (amount 1)) no_animal).2).1
    = (get_dataset demo kccahdata (request_of "" JNull) no_animal).1.
Proof.
  apply (proj2 (overwrite_touches_one_file demo kccdata (request_of "" (amount 1))
                  (request_of "" JNull) no_animal)).
  discriminate.
Defined.

(** ** Replacing twice, deleting twice, creating and deleting *)

Lemma has_key_matches key id item b :
  has_key key id item = Some b -> b = matches key id item.
Proof. unfold has_key. destruct item; simpl; intros; by simplify_eq. Qed.

(** The record found is found again once replaced by a record that
    carries the id. *)
Lemma findIndex_insert key id items i r :
  findIndex (has_key key id) items = Some (Some i) ->
  has_key key id r = Some true ->
  findIndex (has_key key id) (<[i := r]> items) = Some (Some i).
Proof.
  revert i. induction items as [|item rest IH]; intros i; [done|]. simpl.
  destruct (has_key key id item) as [[]|] eqn:Hb; simpl; [| |done].
  - intros [= <-] Hr. simpl. by rewrite Hr.
  - destruct (findIndex (has_key key id) rest) as [[j|]|] eqn:Hrest; simpl; try done.
    intros [= <-] Hr. simpl. rewrite Hb. simpl. by rewrite (IH j eq_refl Hr).
Qed.

Lemma has_key_stamped key n fields :
  has_key key (Some n) (JObj (assign key (JNum n) fields)) = Some true.
Proof.
  unfold has_key. simpl. rewrite own_assign. simpl. by rewrite Z.eqb_refl.
Qed.

(** X7: a replace with a JSON object as body is idempotent: sent again, it
    gets the same answer and leaves the file system as the first left it. *)
Theorem replace_twice_is_replace_once (rt : JS.Runtime) (c : collection)
    (req : request) (fs : gmap string file) :
  is_object (body req) = true ->
  put_api rt c req (put_api rt c req fs).2 = put_api rt c req fs.
Proof.
  intros Hobj.
  destruct (put_api_eq rt c) as [failed Hput]. rewrite Hput.
  destruct (array_or_not (path_of rt c) fs) as [[items Hfs] | Hfs].
  2: { rewrite (replace_record_unreadable_eq _ _ _ _ _ _ fs Hfs). simpl.
       by rewrite (replace_record_unreadable_eq _ _ _ _ _ _ fs Hfs). }
  rewrite (replace_record_eq _ _ _ _ _ _ _ _ Hfs).
  destruct (findIndex _ items) as [[i|]|] eqn:Hfind; simpl;
    try (by rewrite (replace_record_eq _ _ _ _ _ _ _ _ Hfs), Hfind).
  destruct (findIndex_found _ _ _ _ Hfind) as (old & Hold & Hm & _).
  apply matches_spec in Hm as (n & Hn & _). rewrite Hn in *. simpl.
  destruct (body req) as [| | | | |fields] eqn:Hbody; try done. simpl.
  rewrite (replace_record_eq _ _ _ _ _ _ _ (<[i := JObj (assign (key_of c) (JNum n) fields)]> items))
    by apply lookup_insert_eq.
  rewrite Hn, Hbody. rewrite (findIndex_insert _ _ _ _ _ Hfind (has_key_stamped _ _ _)).
  simpl. by rewrite list_insert_insert_eq, insert_insert_eq.
Qed.

Lemma replace_twice_is_replace_once_witness :
  put_api demo gold (request_of "1" (amount 9))
    (put_api demo gold (request_of "1" (amount 9)) one_gold).2
  = put_api demo gold (request_of "1" (amount 9)) one_gold.
Proof. apply (replace_twice_is_replace_once demo gold). reflexivity. Defined.

Lemma stamped_records key items : stamped key items -> Forall record items.
Proof. intros H. eapply Forall_impl; eauto. by intros ? [? _]. Qed.

Lemma matches_ids key n item :
  matches key (Some n) item = true -> n ∈ ids key [item].
Proof.
  intros (n' & [= <-] & Hid)%matches_spec. rewrite (ids_of_match _ _ _ Hid).
  apply list_elem_of_here.
Qed.

Lemma not_in_ids_matches key id items :
  (forall n, id = Some n -> n ∉ ids key items) ->
  Forall (fun item => matches key id item = false) items.
Proof.
  intros Habs. apply Forall_forall. intros item Hin.
  destruct (matches key id item) eqn:Hm; [|done].
  apply matches_spec in Hm as (n & Hn & Hid). destruct (Habs n Hn).
  unfold ids. apply list_elem_of_omap. exists item. by rewrite Hid.
Qed.

(** X8: in a collection built through the endpoints from an empty one, a
    delete answered 200 has removed the only record with that id: the same
    delete sent again is answered 404 and changes nothing. *)
Theorem second_delete_not_found (rt : JS.Runtime) (c : collection)
    (ops : list (method * request)) (req : request) (fs : gmap string file) :
  empty_collection (path_of rt c) fs ->
  status (delete_api rt c req (run rt c ops fs)).1 = 200 ->
  delete_api rt c req (delete_api rt c req (run rt c ops fs)).2 =
    ({| status := 404; payload := error_body (missing_of c) |},
     (delete_api rt c req (run rt c ops fs)).2).
Proof.
  intros Hempty H200.
  destruct (run_sound rt c ops fs [] Hempty) as (items & Hitems & Hst & Hnd).
  { split; [apply Forall_nil_2 | apply NoDup_nil_2]. }
  set (fs1 := run rt c ops fs) in *.
  destruct (delete_api_cases rt c req fs1)
    as [(items' & i & old & d & Hfs & Hold & Hm & Hbefore & Hdel) | [Hdel | [failed Hdel]]];
    rewrite Hdel in *; try done. simpl.
  assert (items' = items) as ->.
  { unfold records_in in Hitems. rewrite Hfs in Hitems. by injection Hitems. }
  destruct (delete_api_eq rt c) as (deleted & failed & Heq). rewrite Heq.
  rewrite (delete_record_eq _ _ _ _ _ _ _ _ (delete i items)) by apply lookup_insert_eq.
  rewrite findIndex_absent; [done| |].
  - rewrite delete_take_drop. rewrite <- (take_drop_middle _ _ _ Hold) in Hst.
    apply stamped_app in Hst as [Hst1 Hst2]. apply Forall_cons_1 in Hst2 as [_ Hst2].
    apply Forall_app. split; by apply (stamped_records (key_of c)).
  - rewrite delete_take_drop. apply Forall_app. split; [done|].
    apply not_in_ids_matches. intros n Hn Hin.
    rewrite <- (take_drop_middle _ _ _ Hold), ids_app, ids_cons in Hnd.
    apply NoDup_app in Hnd as (_ & _ & Hnd).
    apply NoDup_app in Hnd as (_ & Hno & _).
    apply (Hno n); [|done]. rewrite Hn in Hm. by apply matches_ids.
Qed.

Lemma second_delete_not_found_witness :
  delete_api demo gold (request_of "2" JNull)
    (delete_api demo gold (request_of "2" JNull) (run demo gold mixed_traffic ∅)).2 =
    ({| status := 404; payload := error_body "Record not found" |},
     (delete_api demo gold (request_of "2" JNull) (run demo gold mixed_traffic ∅)).2).
Proof.
  apply (second_delete_not_found demo gold mixed_traffic (request_of "2" JNull) ∅);
    reflexivity.
Defined.

Lemma findIndex_after_absent key id l x rest :
  Forall record l ->
  Forall (fun item => matches key id item = false) l ->
  has_key key id x = Some true ->
  findIndex (has_key key id) (l ++ x :: rest) = Some (Some (length l)).
Proof.
  intros Hrec Hno Hx. induction Hrec as [|item l Hitem _ IH]; simpl.
  - by rewrite Hx.
  - apply Forall_cons in Hno as [Hm Hno].
    rewrite (has_key_record _ _ _ Hitem), Hm. simpl. by rewrite (IH Hno).
Qed.

Lemma delete_last {A} (l : list A) (x : A) : delete (length l) (l ++ [x]) = l.
Proof. induction l as [|y l IH]; simpl; [done|]. by rewrite IH. Qed.

(** X9: in a collection built through the endpoints, a create with a
    JSON object as body followed by the delete of the id it answered puts
    the collection back as it was, and the same create sent again is given
    the same id: identifiers are handed out again once the largest is
    deleted. *)
Theorem create_then_delete_restores (rt : JS.Runtime) (c : collection)
    (ops : list (method * request)) (req req' : request) (fs : gmap string file) (n : Z) :
  empty_collection (path_of rt c) fs ->
  is_object (body req) = true ->
  identifier (key_of c) (payload (post_api rt c req (run rt c ops fs)).1) = Some (JNum n) ->
  JS.parseInt rt (param req') = Some n ->
  let fs1 := (post_api rt c req (run rt c ops fs)).2 in
  status (post_api rt c req (run rt c ops fs)).1 = 201 /\
  status (delete_api rt c req' fs1).1 = 200 /\
  records_in (path_of rt c) (delete_api rt c req' fs1).2
    = records_in (path_of rt c) (run rt c ops fs) /\
  (post_api rt c req (delete_api rt c req' fs1).2).1
    = (post_api rt c req (run rt c ops fs)).1.
Proof.
  intros Hempty Hobj Hid Hparse.
  destruct (run_sound rt c ops fs [] Hempty) as (items & Hitems & Hst & Hnd).
  { split; [apply Forall_nil_2 | apply NoDup_nil_2]. }
  set (fs0 := run rt c ops fs) in *.
  destruct (body req) as [| | | | |fields] eqn:Hbody; try done.
  destruct (post_api_eq rt c) as [failed Hpost].
  destruct (delete_api_eq rt c) as (deleted & failed' & Hdelete).
  rewrite Hpost, Hdelete in *.
  rewrite (create_record_next rt _ _ _ _ _ _ _ Hitems Hst Hbody) in *. simpl in *.
  set (m := fold_left Z.max (ids (key_of c) items) 0) in *.
  set (r := JObj (assign (key_of c) (JNum (m + 1)) fields)) in *.
  assert (n = m + 1) as ->.
  { unfold identifier in Hid. simpl in Hid. rewrite own_assign in Hid. by injection Hid. }
  rewrite (delete_record_eq _ _ _ _ _ _ _ _ (items ++ [r])) by apply lookup_insert_eq.
  rewrite Hparse.
  rewrite (findIndex_after_absent _ _ items r []);
    [| by apply (stamped_records (key_of c))
     | apply not_in_ids_matches; intros ? [= <-]; apply next_id_fresh
     | apply has_key_stamped ].
  simpl. rewrite delete_last, records_in_insert.
  split_and!; try done.
  rewrite (create_record_next rt _ _ _ _ _ items fields); [done| |done|done].
  apply records_in_insert.
Qed.

Lemma create_then_delete_restores_witness :
  let fs0 := run demo gold mixed_traffic ∅ in
  let fs1 := (post_api demo gold (request_of "" (amount 4)) fs0).2 in
  status (post_api demo gold (request_of "" (amount 4)) fs0).1 = 201 /\
  status (delete_api demo gold (request_of "4" JNull) fs1).1 = 200 /\
  records_in (path_of demo gold) (delete_api demo gold (request_of "4" JNull) fs1).2
    = records_in (path_of demo gold) fs0 /\
  (post_api demo gold (request_of "" (amount 4))
     (delete_api demo gold (request_of "4" JNull) fs1).2).1
    = (post_api demo gold (request_of "" (amount 4)) fs0).1.
Proof.
  apply (create_then_delete_restores demo gold mixed_traffic (request_of "" (amount 4))
           (request_of "4" JNull) ∅ 4); reflexivity.
Defined.

(** ** The other fields, the size of a collection, unusual files *)

Lemma own_assign_ne k k' x fields : k' <> k -> own k' (assign k x fields) = own k' fields.
Proof.
  intros Hne.
  assert (Hkk : String.eqb k k' = false) by (apply String.eqb_neq; congruence).
  induction fields as [|[k0 v] rest IH]; simpl.
  - by rewrite Hkk.
  - destruct (String.eqb k0 k) eqn:E; simpl.
    + apply String.eqb_eq in E as ->. by rewrite Hkk.
    + by rewrite IH.
Qed.

(** X10: a create or replace that succeeds with a JSON object as body
    answers the body with every field but the identifying one as sent. *)
Theorem stamping_keeps_other_fields (rt : JS.Runtime) (c : collection)
    (m : method) (req : request) (fs : gmap string file)
    (fields : list (string * json)) (k : string) :
  m <> DELETE ->
  body req = JObj fields ->
  succeeded (route rt c m req fs).1 = true ->
  k <> key_of c ->
  JS.get k (payload (route rt c m req fs).1) = Some (own k fields).
Proof.
  intros Hm Hbody Hok Hk. destruct m; [| |done]; simpl in *.
  - destruct (post_api_eq rt c) as [failed Heq]. rewrite Heq in *.
    destruct (records_in (path_of rt c) fs) as [items|] eqn:Hfs;
      [|by rewrite create_record_unreadable in Hok].
    rewrite (create_record_eq rt _ _ _ _ _ _ (records_in_cases _ _ _ Hfs)), Hbody in *.
    destruct (reduce _ items _) as [maxId|]; simpl in *; [|done].
    destruct (JS.plus_one rt maxId) as [next|]; simpl in *; [|done].
    by rewrite own_assign_ne.
  - destruct (put_api_cases rt c req fs)
      as [(items & i & old & r & _ & _ & _ & Hset & Hput) | [Hput | [failed Hput]]];
      rewrite Hput in *; try done.
    rewrite Hbody in Hset. injection Hset as <-. simpl. by rewrite own_assign_ne.
Qed.

Lemma stamping_keeps_other_fields_witness :
  JS.get "amount" (payload (route demo gold PUT (request_of "1" (amount_id 9 7)) one_gold).1)
    = Some (own "amount" [("amount"%string, JNum 9); ("id"%string, JNum 7)]).
Proof.
  apply (stamping_keeps_other_fields demo gold PUT (request_of "1" (amount_id 9 7)) one_gold);
    [discriminate | reflexivity | reflexivity | discriminate].
Defined.

Lemma status_created m r : created (m, r) = true <-> m = POST /\ status r = 201.
Proof.
  unfold created. destruct m; simpl; rewrite ?Z.eqb_eq; split; try done; by intros [].
Qed.

Lemma status_deleted m r : deleted (m, r) = true <-> m = DELETE /\ status r = 200.
Proof.
  unfold deleted. destruct m; simpl; rewrite ?Z.eqb_eq; split; try done; by intros [].
Qed.

(** One request moves the size by what its answer says. *)
Lemma route_size rt c m req fs items :
  records_in (path_of rt c) fs = Some items ->
  exists items',
    records_in (path_of rt c) (route rt c m req fs).2 = Some items' /\
    (length items' + (if deleted (m, (route rt c m req fs).1) then 1 else 0)
     = length items + (if created (m, (route rt c m req fs).1) then 1 else 0))%nat.
Proof.
  intros Hitems. destruct m; simpl.
  - destruct (post_api_cases rt c req fs) as [(items' & r & Hfs & ->) | [failed ->]]; simpl.
    + rewrite Hitems in Hfs. injection Hfs as <-.
      exists (items ++ [r]). rewrite records_in_insert, length_app. simpl.
      split; [done|]. unfold created, deleted. simpl. lia.
    + exists items. split; [done|]. unfold created, deleted. simpl. lia.
  - destruct (put_api_cases rt c req fs)
      as [(items' & i & old & r & Hfs & _ & _ & _ & ->) | [-> | [failed ->]]]; simpl.
    + exists (<[i := r]> items'). rewrite records_in_insert, length_insert.
      unfold records_in in Hitems. rewrite Hfs in Hitems. injection Hitems as ->.
      split; [done|]. unfold created, deleted. simpl. lia.
    + exists items. split; [done|]. unfold created, deleted. simpl. lia.
    + exists items. split; [done|]. unfold created, deleted. simpl. lia.
  - destruct (delete_api_cases rt c req fs)
      as [(items' & i & old & d & Hfs & Hold & _ & _ & ->) | [-> | [failed ->]]]; simpl.
    + exists (delete i items'). rewrite records_in_insert.
      unfold records_in in Hitems. rewrite Hfs in Hitems. injection Hitems as ->.
      split; [done|]. unfold created, deleted. simpl.
      apply lookup_lt_Some in Hold. rewrite length_delete by eauto using lookup_lt_is_Some_2.
      lia.
    + exists items. split; [done|]. unfold created, deleted. simpl. lia.
    + exists items. split; [done|]. unfold created, deleted. simpl. lia.
Qed.

(** X11: after any sequence of creates, replaces and deletes on a
    collection, the file is still a collection, and its size is the size
    before plus the creates answered 201 minus the deletes answered 200. *)
Theorem size_counts_creates_and_deletes (rt : JS.Runtime) (c : collection)
    (ops : list (method * request)) (fs : gmap string file) (items : list json) :
  records_in (path_of rt c) fs = Some items ->
  exists items',
    records_in (path_of rt c) (run rt c ops fs) = Some items' /\
    (length items' + length (filter deleted (answers rt c ops fs))
     = length items + length (filter created (answers rt c ops fs)))%nat.
Proof.
  revert fs items. induction ops as [|[m req] ops IH]; intros fs items Hitems; simpl.
  - exists items. split; [done|]. simpl. lia.
  - destruct (route_size rt c m req fs items Hitems) as (items1 & H1 & Hsize1).
    destruct (IH _ _ H1) as (items' & H' & Hsize').
    exists items'. split; [done|].
    rewrite !filter_cons.
    destruct (deleted _) eqn:Hd, (created _) eqn:Hc; simpl in *;
      repeat case_decide; simpl; try done; lia.
Qed.

Lemma size_counts_creates_and_deletes_witness :
  exists items',
    records_in (path_of demo gold) (run demo gold mixed_traffic ∅) = Some items' /\
    (length items' + length (filter deleted (answers demo gold mixed_traffic ∅))
     = length (@nil json) + length (filter created (answers demo gold mixed_traffic ∅)))%nat.
Proof.
  apply (size_counts_creates_and_deletes demo gold mixed_traffic ∅ []). reflexivity.
Defined.

(** X12: when the file of a collection is missing, listing, replace and
    delete are answered 500 and create nothing, while a create with a JSON
    object as body is answered 201 with identifier 1 and leaves a
    collection of that one record. *)
Theorem missing_file (rt : JS.Runtime) (c : collection) (req new : request)
    (fs : gmap string file) (fields : list (string * json)) :
  fs !! path_of rt c = None ->
  body new = JObj fields ->
  status (get_api rt c req fs).1 = 500 /\
  status (put_api rt c req fs).1 = 500 /\
  status (delete_api rt c req fs).1 = 500 /\
  (get_api rt c req fs).2 = fs /\
  (put_api rt c req fs).2 = fs /\
  (delete_api rt c req fs).2 = fs /\
  status (post_api rt c new fs).1 = 201 /\
  identifier (key_of c) (payload (post_api rt c new fs).1) = Some (JNum 1) /\
  records_in (path_of rt c) (post_api rt c new fs).2
    = Some [payload (post_api rt c new fs).1].
Proof.
  intros Hnone Hbody.
  assert (Hnot : forall items, fs !! path_of rt c <> Some (Document (JArr items)))
    by (intros; congruence).
  destruct (get_api_eq rt c) as [f1 ->]. destruct (put_api_eq rt c) as [f2 ->].
  destruct (delete_api_eq rt c) as (d & f3 & ->). destruct (post_api_eq rt c) as [f4 ->].
  rewrite list_records_eq, Hnone, replace_record_unreadable_eq, delete_record_unreadable_eq
    by done.
  rewrite (create_record_next rt _ _ _ _ _ [] fields); [|by unfold records_in; rewrite Hnone|
    apply Forall_nil_2|done].
  simpl. split_and!; try done; [|apply records_in_insert].
  unfold identifier. simpl. by rewrite own_assign.
Qed.

Lemma missing_file_witness :
  status (get_api demo crops (request_of "1" JNull) ∅).1 = 500 /\
  status (put_api demo crops (request_of "1" JNull) ∅).1 = 500 /\
  status (delete_api demo crops (request_of "1" JNull) ∅).1 = 500 /\
  (get_api demo crops (request_of "1" JNull) ∅).2 = ∅ /\
  (put_api demo crops (request_of "1" JNull) ∅).2 = ∅ /\
  (delete_api demo crops (request_of "1" JNull) ∅).2 = ∅ /\
  status (post_api demo crops (request_of "" (amount 2)) ∅).1 = 201 /\
  identifier (key_of crops) (payload (post_api demo crops (request_of "" (amount 2)) ∅).1)
    = Some (JNum 1) /\
  records_in (path_of demo crops) (post_api demo crops (request_of "" (amount 2)) ∅).2
    = Some [payload (post_api demo crops (request_of "" (amount 2)) ∅).1].
Proof.
  apply (missing_file demo crops (request_of "1" JNull) (request_of "" (amount 2)) ∅
           [("amount"%string, JNum 2)]); reflexivity.
Defined.

(** X13: when the file of a collection holds a JSON document that is not
    an array, the listing answers it with 200 as it is, while create,
    replace and delete are answered 500 and leave it. *)
Theorem document_not_an_array (rt : JS.Runtime) (c : collection) (m : method)
    (req : request) (fs : gmap string file) (doc : json) :
  fs !! path_of rt c = Some (Document doc) ->
  as_array doc = None ->
  get_api rt c req fs = ({| status := 200; payload := doc |}, fs) /\
  status (route rt c m req fs).1 = 500 /\
  (route rt c m req fs).2 = fs.
Proof.
  intros Hfs Hdoc.
  assert (Hnot : forall items, fs !! path_of rt c <> Some (Document (JArr items))).
  { intros items Heq. rewrite Hfs in Heq. injection Heq as ->. done. }
  split.
  - destruct (get_api_eq rt c) as [f1 ->]. by rewrite list_records_eq, Hfs.
  - destruct m; simpl.
    + destruct (post_api_eq rt c) as [f ->]. rewrite create_record_unreadable; [done|].
      unfold records_in. rewrite Hfs. by destruct doc.
    + destruct (put_api_eq rt c) as [f ->]. by rewrite replace_record_unreadable_eq.
    + destruct (delete_api_eq rt c) as (d & f & ->).
      by rewrite delete_record_unreadable_eq.
Qed.

Lemma document_not_an_array_witness :
  get_api demo gold (request_of "" (amount 1)) {[ dataFilePath demo := Document (JObj []) ]}
    = ({| status := 200; payload := JObj [] |}, {[ dataFilePath demo := Document (JObj []) ]}) /\
  status (route demo gold POST (request_of "" (amount 1))
            {[ dataFilePath demo := Document (JObj []) ]}).1 = 500 /\
  (route demo gold POST (request_of "" (amount 1))
     {[ dataFilePath demo := Document (JObj []) ]}).2
    = {[ dataFilePath demo := Document (JObj []) ]}.
Proof.
  apply (document_not_an_array demo gold POST (request_of "" (amount 1))
           {[ dataFilePath demo := Document (JObj []) ]} (JObj [])); reflexivity.
Defined.

(** ** Initialisation *)

Lemma initializeFiles_for_of rt :
  exists files, forall fs, initializeFiles rt fs = (for_of files init_file fs).2.
Proof.
  destruct (JS.isVercel rt) eqn:Hv; eexists; intros fs; unfold initializeFiles; rewrite Hv.
  - reflexivity.
  - unfold mbind, io_bind, pathExists, mkdirp, mret, io_ret. by destruct (bool_decide _).
Qed.

Lemma for_of_init_present files : forall fs p,
  p ∈ files.*1 -> is_Some ((for_of files init_file fs).2 !! p).
Proof.
  induction files as [|[q d] files IH]; intros fs p Hin; [by apply elem_of_nil in Hin|].
  simpl. unfold mbind, io_bind. rewrite init_file_eq.
  apply elem_of_cons in Hin as [-> | Hin]; [|by apply IH].
  simpl. destruct (fs !! q) as [f|] eqn:E.
  - exists f. by apply for_of_init_keeps.
  - exists (Document d). apply for_of_init_keeps, lookup_insert_eq.
Qed.

Lemma for_of_init_settled files : forall fs,
  (forall p, p ∈ files.*1 -> is_Some (fs !! p)) -> (for_of files init_file fs).2 = fs.
Proof.
  induction files as [|[q d] files IH]; intros fs Hall; [done|].
  simpl. unfold mbind, io_bind. rewrite init_file_eq.
  destruct (Hall q) as [f Hf]; [apply list_elem_of_here|]. rewrite Hf.
  apply IH. intros p Hp. apply Hall. by apply list_elem_of_further.
Qed.

(** X14: initialisation never changes a file that is there, and run again
    it changes nothing. *)
Theorem initializeFiles_keeps_and_settles (rt : JS.Runtime) (fs : gmap string file) :
  (forall p f, fs !! p = Some f -> initializeFiles rt fs !! p = Some f) /\
  initializeFiles rt (initializeFiles rt fs) = initializeFiles rt fs.
Proof.
  destruct (initializeFiles_for_of rt) as [files Heq]. rewrite !Heq. split.
  - intros p f. apply for_of_init_keeps.
  - apply for_of_init_settled. intros p. apply for_of_init_present.
Qed.

Lemma initializeFiles_keeps_and_settles_witness :
  initializeFiles demo one_gold !! dataFilePath demo
    = Some (Document (JArr [amount_id 5 1])).
Proof.
  apply (proj1 (initializeFiles_keeps_and_settles demo one_gold)). reflexivity.
Defined.

Lemma initializeFiles_vercel_witness :
  get_api demo gold (request_of "" JNull) (initializeFiles demo ∅) =
    ({| status := 200; payload := JArr [] |}, initializeFiles demo ∅) /\
  get_dataset demo kccdata (request_of "" JNull) (initializeFiles demo ∅) =
    ({| status := 200; payload := JArr [] |}, initializeFiles demo ∅).
Proof.
  split.
  - apply (proj1 (initializeFiles_vercel demo ∅ (request_of "" JNull) eq_refl) gold).
    reflexivity.
  - apply (proj2 (initializeFiles_vercel demo ∅ (request_of "" JNull) eq_refl) kccdata).
    reflexivity.
Defined.

Lemma initializeFiles_local_witness :
  initializeFiles local one_gold !! path_of local gold = one_gold !! path_of local gold /\
  initializeFiles local one_gold !! dataset_path local kccdata
    = one_gold !! dataset_path local kccdata.
Proof.
  split.
  - apply (proj1 (initializeFiles_local local one_gold eq_refl) gold).
  - apply (proj2 (initializeFiles_local local one_gold eq_refl) kccdata).
Defined.

(** ** Updating a profile *)








(** ** Identifiers that are missing or not unique *)





(** ** The two scoped lookups and the listings *)

(** X20: the two scoped lookups answer 200 for the same identifier only
    for a row whose loan type is falsy; a row with a loan type is served by
    one of them at most. *)
Theorem served_by_both_is_untyped (req : request) (t : list Store.row) :
  status (user_data_of KCC req t) = 200 ->
  status (user_data_of KCCAH req t) = 200 ->
  exists r,
    filter (Store.eq Profiles.u_en (param req)) t = [r] /\
    JS.truthy (own "loantype" r) = false.
Proof.
  rewrite !user_data_of_eq. unfold Profiles.user_data.
  destruct (filter _ t) as [|r [|r' rest]]; simpl; try done.
  intros H1 H2. exists r. split; [done|].
  destruct (JS.truthy (own "loantype" r)) eqn:Ht; [exfalso|done]. simpl in *.
  unfold JS.strict_ne_str in *.
  destruct (own "loantype" r) as [[| | |s| |]|]; try done.
  destruct (String.eqb_spec s "KCC") as [-> | ?]; simpl in *; done.
Qed.

Lemma served_by_both_is_untyped_witness :
  exists r,
    filter (Store.eq Profiles.u_en (param (request_of "42" JNull)))
      [profile "42" (JStr "")] = [r] /\
    JS.truthy (own "loantype" r) = false.
Proof.
  apply (served_by_both_is_untyped (request_of "42" JNull) [profile "42" (JStr "")]);
    reflexivity.
Defined.

(** X21: a row with a loan type that a scoped lookup serves with 200 is
    among the rows the listing of that loan type answers when asked for
    its tag. *)
Theorem served_profile_is_listed (rt : JS.Runtime) (l : loan) (req : request)
    (t : list Store.row) (r : Store.row) :
  filter (Store.eq Profiles.u_en (param req)) t = [r] ->
  JS.truthy (own "loantype" r) = true ->
  status (user_data_of l req t) = 200 ->
  exists rows,
    get_all_of rt l (query_of (QText (tag_of l))) t = listing rows /\ r ∈ rows.
Proof.
  intros Hrows Htruthy. rewrite user_data_of_eq. unfold Profiles.user_data.
  rewrite Hrows. simpl. rewrite Htruthy. simpl.
  destruct (JS.strict_ne_str _ _) eqn:Hne; [done|]. intros _.
  assert (Htag : own "loantype" r = Some (JStr (tag_of l))).
  { unfold JS.strict_ne_str in Hne. destruct (own "loantype" r) as [[| | |s| |]|]; try done.
    apply negb_false_iff, String.eqb_eq in Hne. by rewrite Hne. }
  assert (Hin : r ∈ t).
  { assert (r ∈ filter (Store.eq Profiles.u_en (param req)) t) as Hf
      by (rewrite Hrows; apply list_elem_of_here).
    by apply list_elem_of_filter in Hf as [_ ?]. }
  exists (filter (Store.ilike "loantype" (Case.fold (tag_of l))) t). split.
  - rewrite get_all_of_eq. unfold Profiles.get_all. simpl.
    rewrite (JS.toLowerCase_plain rt (tag_of l)) by (by destruct l).
    by destruct l.
  - apply list_elem_of_filter. split; [|done].
    unfold Store.ilike. rewrite Htag. by destruct l.
Qed.

Lemma served_profile_is_listed_witness :
  exists rows,
    get_all_of demo KCCAH (query_of (QText (tag_of KCCAH))) two_profiles = listing rows /\
    profile "2" (JStr "KCCAH") ∈ rows.
Proof.
  apply (served_profile_is_listed demo KCCAH (request_of "2" JNull) two_profiles
           (profile "2" (JStr "KCCAH"))); reflexivity.
Defined.

(** ** Decimal ids in the path *)

Lemma digit_pretty_char (m : N) :
  (m < 10)%N -> ParseInt.digit 10 (pretty_N_char m) = Some (Z.of_N m).
Proof.
  intros Hm.
  assert (m = 0 \/ m = 1 \/ m = 2 \/ m = 3 \/ m = 4 \/ m = 5 \/ m = 6 \/ m = 7
          \/ m = 8 \/ m = 9)%N as Hcases by lia.
  repeat destruct Hcases as [-> | Hcases]; try subst m; reflexivity.
Qed.

(** Reading the digits of [x] in front of [s] is reading [s] from [x]. *)
Lemma digits_pretty_go (x : N) : forall s acc,
  default 0 acc = 0 ->
  ParseInt.digits 10 acc (pretty_N_go x s) =
    ParseInt.digits 10 (if decide (x = 0%N) then acc else Some (Z.of_N x)) s.
Proof.
  induction (N.lt_wf_0 x) as [x _ IH]; intros s acc Hacc.
  destruct (decide (x = 0%N)) as [-> | Hx]; [by rewrite pretty_N_go_0|].
  rewrite pretty_N_go_step by lia.
  rewrite IH; [|apply N.div_lt; lia|done].
  simpl. rewrite digit_pretty_char by (apply N.mod_lt; lia).
  f_equal. f_equal.
  pose proof (N.div_mod x 10 ltac:(lia)) as Hdm.
  destruct (decide (x `div` 10 = 0)%N) as [Hd | Hd].
  - rewrite Hacc. rewrite Hd in Hdm. lia.
  - simpl. lia.
Qed.

(** The rendering of a positive number starts with a digit other than
    zero. *)
Lemma first_digit_go (x : N) : forall s,
  (0 < x)%N ->
  exists c rest, pretty_N_go x s = String c rest /\
    (exists d, ParseInt.digit 10 c = Some d) /\ c <> "0"%char.
Proof.
  induction (N.lt_wf_0 x) as [x _ IH]; intros s Hx.
  rewrite pretty_N_go_step by done.
  destruct (decide (x `div` 10 = 0)%N) as [Hd | Hd].
  - rewrite Hd, pretty_N_go_0. eexists _, _. split; [done|].
    assert (x < 10)%N by (apply N.div_small_iff in Hd; lia).
    split; [rewrite digit_pretty_char by (apply N.mod_lt; lia); eauto|].
    rewrite N.mod_small by done.
    assert (x = 1 \/ x = 2 \/ x = 3 \/ x = 4 \/ x = 5 \/ x = 6 \/ x = 7
            \/ x = 8 \/ x = 9)%N as Hcases by lia.
    repeat destruct Hcases as [-> | Hcases]; try subst x; discriminate.
  - assert (Hlt : (x `div` 10 < x)%N) by (apply N.div_lt; lia).
    assert (Hpos : (0 < x `div` 10)%N) by (apply N.neq_0_lt_0; exact Hd).
    destruct (IH _ Hlt (String (pretty_N_char (x `mod` 10)) s) Hpos)
      as (c & rest & Heq & Hc & H0).
    by exists c, rest.
Qed.

(** Neither a space, a sign nor a hexadecimal prefix starts with a digit
    other than zero. *)
Lemma unsigned_from_digit c rest :
  (exists d, ParseInt.digit 10 c = Some d) -> c <> "0"%char ->
  ParseInt.unsigned (String c rest) = ParseInt.digits 10 None (String c rest) /\
  ParseInt.skip_spaces (String c rest) = String c rest.
Proof.
  destruct c as [[] [] [] [] [] [] [] []]; intros [d Hd] H0;
    try (by vm_compute in Hd); try done; split; try reflexivity;
    destruct rest as [|b [|b' rest]]; reflexivity.
Qed.

Lemma unsigned_pretty (p : positive) :
  ParseInt.unsigned (pretty (N.pos p)) = Some (Z.pos p) /\
  exists c rest, pretty (N.pos p) = String c rest /\
    ParseInt.skip_spaces (String c rest) = String c rest /\
    exists d, ParseInt.digit 10 c = Some d.
Proof.
  unfold pretty, pretty_N. rewrite decide_False by done.
  destruct (first_digit_go (N.pos p) "" ltac:(lia)) as (c & rest & Heq & Hc & H0).
  rewrite Heq. destruct (unsigned_from_digit c rest Hc H0) as [-> Hskip]. split.
  - rewrite <- Heq, digits_pretty_go by done. by rewrite decide_False by done.
  - by exists c, rest.
Qed.

Lemma skip_spaces_minus (s : string) :
  ParseInt.skip_spaces (String "-" s) = String "-" s.
Proof. destruct s as [|b [|b' s]]; reflexivity. Qed.

Lemma nearest_exact (n : Z) : Z.abs n < 2 ^ 53 -> Double.nearest n = Some n.
Proof.
  intros Hn. unfold Double.nearest. by rewrite (proj2 (Z.ltb_lt _ _) Hn).
Qed.

(** X22: [parseInt] reads the decimal rendering of an integer that is
    exact as a double (below 2^53 in absolute value) back as that integer:
    the id a create answers, written in decimal in the path, is the id
    replace and delete look for. *)
Theorem parseInt_reads_decimal (n : Z) :
  Z.abs n < 2 ^ 53 -> ParseInt.parseInt (pretty n) = Some n.
Proof.
  intros Hn. destruct n as [|p|p]; [done| |].
  - destruct (unsigned_pretty p) as (Hread & c & rest & Heq & Hskip & d & Hd).
    change (pretty (Z.pos p)) with (pretty (N.pos p)).
    rewrite Heq in Hread |- *. unfold ParseInt.parseInt. rewrite Hskip.
    destruct c as [[] [] [] [] [] [] [] []]; try (by vm_compute in Hd);
      cbv beta iota; rewrite Hread; by apply nearest_exact.
  - change (pretty (Z.neg p)) with (String "-" (pretty (N.pos p))).
    unfold ParseInt.parseInt. rewrite skip_spaces_minus.
    cbv beta iota. rewrite (proj1 (unsigned_pretty p)). by apply nearest_exact.
Qed.

Lemma parseInt_reads_decimal_witness : ParseInt.parseInt (pretty 42) = Some 42.
Proof. apply (parseInt_reads_decimal 42). reflexivity. Defined.

(** ** An identifier stored as a string *)

Lemma reduce_app f l1 l2 acc :
  reduce f (l1 ++ l2) acc = reduce f l1 acc ≫= reduce f l2.
Proof.
  revert acc. induction l1 as [|x l1 IH]; intros acc; simpl; [done|].
  destruct (f acc x); simpl; [apply IH | done].
Qed.

(** X23: when the last record of a collection carries as identifier a
    string that converts to a number larger than every integer identifier
    before it, the identifier a create hands out is that string with ["1"]
    appended, not a number. *)
Theorem string_id_is_concatenated (rt : JS.Runtime) (c : collection)
    (req : request) (fs : gmap string file) (items : list json) (last : json)
    (s : string) (k : Z) (fields : list (string * json)) :
  fs !! path_of rt c = Some (Document (JArr (items ++ [last]))) ->
  stamped (key_of c) items ->
  identifier (key_of c) last = Some (JStr s) ->
  JS.StringToNumber rt s = Some k ->
  fold_left Z.max (ids (key_of c) items) 0 < k ->
  body req = JObj fields ->
  (post_api rt c req fs).1 =
    {| status := 201;
       payload := JObj (assign (key_of c) (JStr (s +:+ "1")) fields) |}.
Proof.
  intros Hfs Hst Hlast Hnum Hlt Hbody.
  destruct (post_api_eq rt c) as [failed ->].
  rewrite (create_record_eq rt _ _ _ _ _ (items ++ [last])) by (by right).
  rewrite reduce_app, (reduce_larger rt _ _ _ Hst). simpl.
  assert (Hrec : record last) by (intros ->; done).
  unfold larger. rewrite (get_identifier _ _ Hrec), Hlast. simpl.
  unfold JS.gt. simpl. rewrite Hnum.
  apply Z.ltb_lt in Hlt as ->. simpl. by rewrite Hbody.
Qed.

Lemma string_id_is_concatenated_witness :
  (post_api reads_five gold (request_of "" (amount 7)) string_gold).1 =
    {| status := 201;
       payload := JObj [("amount"%string, JNum 7); ("id"%string, JStr "51")] |}.
Proof.
  apply (string_id_is_concatenated reads_five gold (request_of "" (amount 7)) string_gold
           [amount_id 5 1] (JObj [("id"%string, JStr "5")]) "5" 5
           [("amount"%string, JNum 7)]);
    [reflexivity | apply Forall_singleton; split; [done | right; by exists 1]
     | reflexivity | reflexivity | reflexivity | reflexivity].
Defined.
